(** * QuanticDaily: subscriber store, unsubscribe tokens and HTTP routes

  A shallow embedding of the subscription logic of the newsletter site:

  - [lib/firestore.ts]: [generateUnsubscribeToken], [addSubscriber],
    [getSubscriberByEmail], [unsubscribeByEmail], [unsubscribeByToken],
    [getActiveSubscribers];
  - [api/subscribe/route.ts] and [api/unsubscribe/route.ts]: the four
    HTTP handlers;
  - the token generator of the newsletter automation script.

  Strings are modelled by their UTF-8 bytes (Rocq [string]), timestamps
  by integers, the Firestore collection by the list of its documents in
  query order, and asynchronous code that may reject by a small
  state-and-exception monad. *)

From Stdlib Require Import ZArith NArith Ascii String List Bool Lia.
From stdpp Require Import base option list.
Import ListNotations.

Local Open Scope string_scope.
Local Open Scope Z_scope.

(* ===================================================================== *)
(** ** SHA-256 (Node's [crypto.createHash('sha256')]), FIPS 180-4 *)
(* ===================================================================== *)

Module SHA256.

(** 32-bit words are integers in [0, 2^32); every operation that can
    leave that range wraps explicitly. *)
Definition wrap32 (x : Z) : Z := x mod 4294967296.
Definition add32 (x y : Z) : Z := wrap32 (x + y).
Definition not32 (x : Z) : Z := Z.lxor x 4294967295.
Definition rotr (n x : Z) : Z :=
  Z.lor (Z.shiftr x n) (wrap32 (Z.shiftl x (32 - n))).

Definition Ch (x y z : Z) : Z := Z.lxor (Z.land x y) (Z.land (not32 x) z).
Definition Maj (x y z : Z) : Z :=
  Z.lxor (Z.lxor (Z.land x y) (Z.land x z)) (Z.land y z).
Definition Sum0 (x : Z) : Z := Z.lxor (Z.lxor (rotr 2 x) (rotr 13 x)) (rotr 22 x).
Definition Sum1 (x : Z) : Z := Z.lxor (Z.lxor (rotr 6 x) (rotr 11 x)) (rotr 25 x).
Definition sig0 (x : Z) : Z := Z.lxor (Z.lxor (rotr 7 x) (rotr 18 x)) (Z.shiftr x 3).
Definition sig1 (x : Z) : Z := Z.lxor (Z.lxor (rotr 17 x) (rotr 19 x)) (Z.shiftr x 10).

(** [root_bits k b x r]: the largest [r'] with [r' ^ k <= x] among the
    numbers that extend [r] by bits below position [b]. *)
Fixpoint root_bits (k : Z) (b : nat) (x r : Z) : Z :=
  match b with
  | O => r
  | S b' =>
      let r' := r + 2 ^ Z.of_nat b' in
      root_bits k b' x (if r' ^ k <=? x then r' else r)
  end.

(** The first 32 bits of the fractional part of the [k]-th root of [p]. *)
Definition frac_root (k p : Z) : Z :=
  wrap32 (root_bits k 40 (p * 2 ^ (32 * k)) 0).

Definition is_prime (p : Z) : bool :=
  List.forallb (fun d => negb (p mod Z.of_nat d =? 0)) (List.seq 2 (Z.to_nat p - 2)).

(** The first sixty-four primes, 2 to 311. *)
Definition primes : list Z :=
  List.filter is_prime (List.map Z.of_nat (List.seq 2 310)).

(** Round constants (FIPS 180-4, 4.2.2): from the cube roots of the
    first sixty-four primes. *)
Definition K : list Z := List.map (frac_root 3) primes.

(** The eight working variables / the chaining value. *)
Record Regs := mkRegs { ra : Z; rb : Z; rc : Z; rd : Z; re : Z; rf : Z; rg : Z; rh : Z }.

(** Initial hash value (FIPS 180-4, 5.3.3): from the square roots of the
    first eight primes. *)
Definition IV : Regs :=
  mkRegs (frac_root 2 2) (frac_root 2 3) (frac_root 2 5) (frac_root 2 7)
         (frac_root 2 11) (frac_root 2 13) (frac_root 2 17) (frac_root 2 19).

Definition bytes_of_string (s : string) : list Z :=
  List.map (fun c => Z.of_N (N_of_ascii c)) (list_ascii_of_string s).

(** Big-endian encoding of [x] on [n] bytes. *)
Fixpoint be_bytes (n : nat) (x : Z) : list Z :=
  match n with
  | O => []
  | S n' => Z.shiftr x (8 * Z.of_nat n') mod 256 :: be_bytes n' x
  end.

(** Message, then 0x80, then zeros up to 56 mod 64, then the bit length
    on 64 bits. *)
Definition pad (msg : list Z) : list Z :=
  let len := Z.of_nat (List.length msg) in
  msg ++ [128] ++ List.repeat 0 (Z.to_nat ((55 - len) mod 64)) ++ be_bytes 8 (8 * len).

Fixpoint be_word (bs : list Z) : Z :=
  match bs with
  | [] => 0
  | b :: bs' => b * 256 ^ Z.of_nat (List.length bs') + be_word bs'
  end.

(** [words n bs]: the first [n] big-endian 32-bit words of [bs]. *)
Fixpoint words (n : nat) (bs : list Z) : list Z :=
  match n with
  | O => []
  | S n' => be_word (List.firstn 4 bs) :: words n' (List.skipn 4 bs)
  end.

(** Message schedule, most recent word first: [extend n rw] appends [n]
    further words to the reversed schedule [rw]. *)
Fixpoint extend (n : nat) (rw : list Z) : list Z :=
  match n with
  | O => rw
  | S n' =>
      let wt := add32 (add32 (add32 (sig1 (List.nth 1 rw 0)) (List.nth 6 rw 0))
                             (sig0 (List.nth 14 rw 0))) (List.nth 15 rw 0) in
      extend n' (wt :: rw)
  end.

Definition schedule (block : list Z) : list Z :=
  List.rev (extend 48 (List.rev (words 16 block))).

Definition round (r : Regs) (kw : Z * Z) : Regs :=
  let t1 := add32 (add32 (add32 (add32 (rh r) (Sum1 (re r))) (Ch (re r) (rf r) (rg r)))
                         (fst kw)) (snd kw) in
  let t2 := add32 (Sum0 (ra r)) (Maj (ra r) (rb r) (rc r)) in
  mkRegs (add32 t1 t2) (ra r) (rb r) (rc r) (add32 (rd r) t1) (re r) (rf r) (rg r).

Definition compress (h : Regs) (block : list Z) : Regs :=
  let r := List.fold_left round (List.combine K (schedule block)) h in
  mkRegs (add32 (ra h) (ra r)) (add32 (rb h) (rb r)) (add32 (rc h) (rc r))
         (add32 (rd h) (rd r)) (add32 (re h) (re r)) (add32 (rf h) (rf r))
         (add32 (rg h) (rg r)) (add32 (rh h) (rh r)).

(** [blocks n h bs]: absorb [n] 64-byte blocks of [bs]. *)
Fixpoint blocks (n : nat) (h : Regs) (bs : list Z) : Regs :=
  match n with
  | O => h
  | S n' => blocks n' (compress h (List.firstn 64 bs)) (List.skipn 64 bs)
  end.

Definition digest (msg : list Z) : Regs :=
  let p := pad msg in
  blocks (Nat.div (List.length p) 64) IV p.

Definition hex_digit (d : Z) : ascii :=
  if d <? 10 then ascii_of_N (Z.to_N (48 + d)) else ascii_of_N (Z.to_N (87 + d)).

(** [hex n x]: the low [n] hexadecimal digits of [x], lowercase. *)
Fixpoint hex (n : nat) (x : Z) : string :=
  match n with
  | O => EmptyString
  | S n' => String (hex_digit (Z.shiftr x (4 * Z.of_nat n') mod 16)) (hex n' x)
  end.

Definition hex_of_regs (r : Regs) : string :=
  hex 8 (ra r) ++ hex 8 (rb r) ++ hex 8 (rc r) ++ hex 8 (rd r) ++
  hex 8 (re r) ++ hex 8 (rf r) ++ hex 8 (rg r) ++ hex 8 (rh r).

(** [createHash('sha256').update(s).digest('hex')]. *)
Definition sha256_hex (s : string) : string :=
  hex_of_regs (digest (bytes_of_string s)).

End SHA256.

(* ===================================================================== *)
(** ** JavaScript string helpers *)
(* ===================================================================== *)

Module JS.

(** Truthiness of a string value: only the empty string is falsy. *)
Definition truthy (s : string) : bool :=
  match s with EmptyString => false | String _ _ => true end.

(** [a || b] on optional strings ([undefined] and [''] are falsy). *)
Definition or_default (a : option string) (b : string) : string :=
  match a with
  | Some s => if truthy s then s else b
  | None => b
  end.

(** The string a value is converted to when it is concatenated to a
    string: ["undefined"] for [undefined]. *)
Definition ToString (b : option string) : string :=
  match b with
  | Some s => s
  | None => "undefined"
  end.

(** [s.includes(sub)]. *)
Fixpoint includes (s sub : string) : bool :=
  String.prefix sub s ||
  match s with
  | EmptyString => false
  | String _ s' => includes s' sub
  end.

(** The characters of a string, decoded from UTF-8.  A regular
    expression without the [u] flag works on UTF-16 code units; for the
    character class used here a surrogate pair and the code point it
    encodes behave alike (both are outside [\s@]). *)
Definition cont (c : ascii) : N := (N_of_ascii c mod 64)%N.

Fixpoint code_points (s : string) : list N :=
  match s with
  | EmptyString => []
  | String c0 s1 =>
      let b := N_of_ascii c0 in
      if (b <? 192)%N then b :: code_points s1
      else if (b <? 224)%N then
        match s1 with
        | String c1 s2 => ((b - 192) * 64 + cont c1)%N :: code_points s2
        | _ => [b]
        end
      else if (b <? 240)%N then
        match s1 with
        | String c1 (String c2 s3) =>
            ((b - 224) * 4096 + cont c1 * 64 + cont c2)%N :: code_points s3
        | _ => [b]
        end
      else
        match s1 with
        | String c1 (String c2 (String c3 s4)) =>
            ((b - 240) * 262144 + cont c1 * 4096 + cont c2 * 64 + cont c3)%N
              :: code_points s4
        | _ => [b]
        end
  end.

(** The class [\s] of ECMAScript: WhiteSpace and LineTerminator. *)
Definition is_space (c : N) : bool :=
  ((9 <=? c) && (c <=? 13) || (c =? 32) || (c =? 160) || (c =? 5760)
   || (8192 <=? c) && (c <=? 8202) || (c =? 8232) || (c =? 8233)
   || (c =? 8239) || (c =? 8287) || (c =? 12288) || (c =? 65279))%N.

(** The class [[^\s@]]. *)
Definition not_space_at (c : N) : bool := negb (is_space c) && negb (c =? 64)%N.

(** [C+ k]: one or more characters of the class, then the rest of the
    pattern [k] (with backtracking over the length of the run). *)
Fixpoint plus_then (cls : N -> bool) (k : list N -> bool) (s : list N) : bool :=
  match s with
  | [] => false
  | c :: s' => cls c && (k s' || plus_then cls k s')
  end.

(** A literal character, then the rest of the pattern. *)
Definition char_then (x : N) (k : list N -> bool) (s : list N) : bool :=
  match s with
  | c :: s' => (c =? x)%N && k s'
  | [] => false
  end.

Definition at_end (s : list N) : bool :=
  match s with [] => true | _ => false end.

(** [/^[^\s@]+@[^\s@]+\.[^\s@]+$/.test(s)] *)
Definition emailRegex_test (s : string) : bool :=
  plus_then not_space_at
    (char_then 64 (* @ *)
       (plus_then not_space_at
          (char_then 46 (* . *)
             (plus_then not_space_at at_end))))
    (code_points s).

End JS.

(* ===================================================================== *)
(** ** The subscriber collection and the Firestore client *)
(* ===================================================================== *)

Definition Timestamp := Z.

(** A document of the collection ['quantic-emails']: the fields of the
    interface [Subscriber], and the two fields the code writes through
    objects typed [any] ([subscribed], [unsubscribedAt]). *)
Record Subscriber := mkSubscriber {
  email : string;
  subscribedAt : Timestamp;
  active : bool;
  unsubscribeToken : string;
  source : option string;
  subscribed : option bool;
  unsubscribedAt : option Timestamp
}.

(** The object literal passed to [updateDoc]: the fields it mentions. *)
Record Patch := mkPatch {
  p_active : option bool;
  p_subscribed : option bool;
  p_subscribedAt : option Timestamp;
  p_unsubscribeToken : option string;
  p_unsubscribedAt : option Timestamp
}.

(** Merging a patch into a document ([updateDoc], and the object spread
    [{ ...existingSubscriber, ...updatedSubscriber }]): a field the patch
    mentions is overwritten, every other field is kept. *)
Definition apply_patch (p : Patch) (d : Subscriber) : Subscriber :=
  {| email := email d;
     subscribedAt := default (subscribedAt d) (p_subscribedAt p);
     active := default (active d) (p_active p);
     unsubscribeToken := default (unsubscribeToken d) (p_unsubscribeToken p);
     source := source d;
     subscribed := match p_subscribed p with Some b => Some b | None => subscribed d end;
     unsubscribedAt :=
       match p_unsubscribedAt p with Some t => Some t | None => unsubscribedAt d end |}.

Inductive Query :=
| WhereEmail (e : string)      (* where('email', '==', e) *)
| WhereActive.                 (* where('active', '==', true) *)

(** A request sent to Firestore. *)
Inductive Call :=
| CGetDocs (q : Query)
| CAddDoc (d : Subscriber)
| CUpdateDoc (id : nat) (p : Patch).

(** The state a request handler runs against.  [docs] lists the
    documents of the collection in the order queries return them; the
    position of a document is its document id (documents are appended and
    never deleted).  [calls] records the requests sent so far, oldest
    first. *)
Record World := mkWorld {
  docs : list Subscriber;
  calls : list Call
}.

(** What a single invocation reads from its surroundings:
    [process.env.UNSUBSCRIBE_SECRET], the value of [Timestamp.now()], and
    whether Firestore rejects the read or the write of this invocation
    (each service function sends at most one of each). *)
Record Env := mkEnv {
  UNSUBSCRIBE_SECRET : option string;
  now : Timestamp;
  read_fails : bool;
  write_fails : bool
}.

(** *** Promises that may reject *)

Inductive Outcome (A : Type) :=
| Returned (a : A) (w : World)
| Thrown (w : World).
Arguments Returned {A} a w.
Arguments Thrown {A} w.

Definition Async (A : Type) : Type := Env -> World -> Outcome A.

Definition ret {A} (a : A) : Async A := fun _ w => Returned a w.

Definition bind {A B} (m : Async A) (k : A -> Async B) : Async B :=
  fun env w =>
    match m env w with
    | Returned a w' => k a env w'
    | Thrown w' => Thrown w'
    end.

Definition throw {A} : Async A := fun _ w => Thrown w.

(** [try { m } catch (error) { h }] *)
Definition try_catch {A} (m h : Async A) : Async A :=
  fun env w =>
    match m env w with
    | Returned a w' => Returned a w'
    | Thrown w' => h env w'
    end.

Declare Scope async_scope.
Delimit Scope async_scope with async.
Notation "'let*' x ':=' m 'in' k" := (bind m (fun x => k))
  (at level 10, x name, m at level 100, k at level 200) : async_scope.
Local Open Scope async_scope.

Definition final_world {A} (o : Outcome A) : World :=
  match o with Returned _ w => w | Thrown w => w end.

(** *** Firestore primitives *)

Definition matches (q : Query) (d : Subscriber) : bool :=
  match q with
  | WhereEmail e => String.eqb (email d) e
  | WhereActive => active d
  end.

(** The documents matching [q], each with its id; [i] is the id of the
    head of [l]. *)
Fixpoint query_from (i : nat) (q : Query) (l : list Subscriber) : list (nat * Subscriber) :=
  match l with
  | [] => []
  | d :: l' =>
      if matches q d then (i, d) :: query_from (S i) q l' else query_from (S i) q l'
  end.

Definition log (c : Call) (w : World) : World :=
  {| docs := docs w; calls := calls w ++ [c] |}.

Definition getDocs (q : Query) : Async (list (nat * Subscriber)) :=
  fun env w =>
    let w' := log (CGetDocs q) w in
    if read_fails env then Thrown w' else Returned (query_from 0 q (docs w)) w'.

(** [addDoc] resolves to the reference of the new document. *)
Definition addDoc (d : Subscriber) : Async nat :=
  fun env w =>
    let w' := log (CAddDoc d) w in
    if write_fails env then Thrown w'
    else Returned (List.length (docs w)) {| docs := docs w ++ [d]; calls := calls w' |}.

(** [updateDoc] rejects when the document does not exist. *)
Definition updateDoc (id : nat) (p : Patch) : Async unit :=
  fun env w =>
    let w' := log (CUpdateDoc id p) w in
    if write_fails env then Thrown w'
    else match docs w !! id with
         | Some d => Returned tt {| docs := <[id := apply_patch p d]> (docs w); calls := calls w' |}
         | None => Thrown w'
         end.

Definition Timestamp_now : Async Timestamp := fun env w => Returned (now env) w.

Definition process_env_UNSUBSCRIBE_SECRET : Async (option string) :=
  fun env w => Returned (UNSUBSCRIBE_SECRET env) w.

(* ===================================================================== *)
(** ** [lib/firestore.ts] *)
(* ===================================================================== *)

(** [generateUnsubscribeToken], as a function of the value of
    [process.env.UNSUBSCRIBE_SECRET] and of the address. *)
Definition generateUnsubscribeToken (env_secret : option string) (email : string) : string :=
  let secret := JS.or_default env_secret "development-secret-key" in
  SHA256.sha256_hex (email ++ secret).

(** The same call from inside a handler. *)
Definition generateUnsubscribeToken_here (email : string) : Async string :=
  let* env_secret := process_env_UNSUBSCRIBE_SECRET in
  ret (generateUnsubscribeToken env_secret email).

(** The value the service functions resolve to; [subscriber] is only
    present on a successful [addSubscriber] and carries the document id. *)
Record ServiceResult := mkResult {
  success : bool;
  message : string;
  subscriber : option (nat * Subscriber)
}.

Definition result (ok : bool) (msg : string) : ServiceResult :=
  {| success := ok; message := msg; subscriber := None |}.

Definition getSubscriberByEmail (email : string) : Async (option (nat * Subscriber)) :=
  try_catch
    (let* querySnapshot := getDocs (WhereEmail email) in
     match querySnapshot with
     | [] => ret None
     | doc :: _ => ret (Some doc)
     end)
    (ret None).

Definition addSubscriber (email source : string) : Async ServiceResult :=
  try_catch
    (let* existingSubscriber := getSubscriberByEmail email in
     match existingSubscriber with
     | Some (id, existing) =>
         if active existing then
           ret (result false "This email is already subscribed")
         else
           let* t := Timestamp_now in
           let* token := generateUnsubscribeToken_here email in
           let updatedSubscriber :=
             {| p_active := Some true;
                p_subscribed := Some true;
                p_subscribedAt := Some t;
                p_unsubscribeToken := Some token;
                p_unsubscribedAt := None |} in
           let* _ := updateDoc id updatedSubscriber in
           ret {| success := true;
                  message := "Successfully resubscribed to QuanticDaily!";
                  subscriber := Some (id, apply_patch updatedSubscriber existing) |}
     | None =>
         let* t := Timestamp_now in
         let* token := generateUnsubscribeToken_here email in
         let newSubscriber :=
           {| email := email;
              subscribedAt := t;
              active := true;
              subscribed := Some true;
              unsubscribeToken := token;
              source := Some source;
              unsubscribedAt := None |} in
         let* id := addDoc newSubscriber in
         ret {| success := true;
                message := "Successfully subscribed to QuanticDaily!";
                subscriber := Some (id, newSubscriber) |}
     end)
    (ret (result false "Failed to subscribe. Please try again.")).

(** The patch both unsubscribe paths send. *)
Definition deactivate (t : Timestamp) : Patch :=
  {| p_active := Some false;
     p_subscribed := None;
     p_subscribedAt := None;
     p_unsubscribeToken := None;
     p_unsubscribedAt := Some t |}.

Definition unsubscribeByEmail (email : string) : Async ServiceResult :=
  try_catch
    (let* subscriber := getSubscriberByEmail email in
     match subscriber with
     | None => ret (result false "Email address not found in our subscriber list")
     | Some (id, sub) =>
         if negb (active sub) then
           ret (result false "This email is already unsubscribed")
         else
           let* t := Timestamp_now in
           let* _ := updateDoc id (deactivate t) in
           ret (result true "Successfully unsubscribed from QuanticDaily!")
     end)
    (ret (result false "Failed to unsubscribe. Please try again.")).

Definition unsubscribeByToken (email token : string) : Async ServiceResult :=
  try_catch
    (let* expectedToken := generateUnsubscribeToken_here email in
     if negb (String.eqb token expectedToken) then
       ret (result false "Invalid unsubscribe token")
     else
       let* subscriber := getSubscriberByEmail email in
       match subscriber with
       | None => ret (result false "Email address not found in our subscriber list")
       | Some (id, sub) =>
           if negb (active sub) then
             ret (result true "This email is already unsubscribed")
           else
             let* t := Timestamp_now in
             let* _ := updateDoc id (deactivate t) in
             ret (result true "Successfully unsubscribed from QuanticDaily!")
       end)
    (ret (result false "Failed to unsubscribe. Please try again.")).

Definition getActiveSubscribers : Async (list Subscriber) :=
  try_catch
    (let* querySnapshot := getDocs WhereActive in
     ret (List.map snd querySnapshot))
    (ret []).

(** The failures of the specification's taxonomy, as the service reports
    them. *)
Definition AlreadySubscribed : ServiceResult := result false "This email is already subscribed".
Definition NotFound : ServiceResult := result false "Email address not found in our subscriber list".
Definition AlreadyInactive : ServiceResult := result false "This email is already unsubscribed".
Definition InvalidToken : ServiceResult := result false "Invalid unsubscribe token".

(* ===================================================================== *)
(** ** The token generator of the automation script *)
(* ===================================================================== *)

Module Script.

(** [generateUnsubscribeToken] of the newsletter automation script, as a
    function of [CONFIG.UNSUBSCRIBE_SECRET] (the environment variable,
    without a fallback) and of the address. *)
Definition generateUnsubscribeToken (config_secret : option string) (email : string) : string :=
  let secret := config_secret in
  SHA256.sha256_hex (email ++ JS.ToString secret).

End Script.

(* ===================================================================== *)
(** ** The HTTP routes *)
(* ===================================================================== *)

(** JSON values of response bodies.  [JDate t] stands for the ISO-8601
    string [t.toDate().toISOString()]. *)
#[local] Unset Elimination Schemes.
Inductive Json :=
| JString (s : string)
| JNumber (n : Z)
| JDate (t : Timestamp)
| JArray (items : list Json)
| JObject (fields : list (string * Json)).
#[local] Set Elimination Schemes.

Record Response := mkResponse {
  body : Json;
  status : Z
}.

(** [NextResponse.json(body, { status })]. *)
Definition NextResponse_json (b : Json) (st : Z) : Response := {| body := b; status := st |}.

(** The body of a POST request: one on which
    [const { email } = await request.json()] throws (text that is not
    JSON, or the JSON value [null]), or an object with or without a
    string field [email].

    The handlers do not check the type of [email].  A body whose [email]
    is another JSON value is tested through [ToString] (an array such as
    [["a\@x.com"]] passes) and then handed to the library outside the
    parameter type [email: string] that [lib/firestore.ts] declares.
    Such bodies are not represented: every statement about a
    [RequestBody] is about a body that is not JSON or whose [email] is a
    string or absent. *)
Inductive RequestBody :=
| Malformed
| Fields (email : option string).

Definition request_json (b : RequestBody) : Async (option string) :=
  match b with
  | Malformed => throw
  | Fields e => ret e
  end.

(** [!x] for a value that is a string, [null] or [undefined]. *)
Definition falsy (x : option string) : bool :=
  match x with
  | None => true
  | Some s => negb (JS.truthy s)
  end.

(** The string behind a value that passed the [!x] test. *)
Definition string_of (x : option string) : string := default "" x.

Definition internal_server_error : Response :=
  NextResponse_json (JObject [("error", JString "Internal server error")]) 500.

Module SubscribeRoute.

Definition POST (request : RequestBody) : Async Response :=
  try_catch
    (let* email := request_json request in
     if falsy email || negb (JS.emailRegex_test (string_of email)) then
       ret (NextResponse_json
              (JObject [("error", JString "Please provide a valid email address")]) 400)
     else
       let* result := addSubscriber (string_of email) "website" in
       if success result then
         ret (NextResponse_json (JObject [("message", JString (message result))]) 200)
       else
         let status :=
           if JS.includes (message result) "already subscribed" then 409 else 400 in
         ret (NextResponse_json (JObject [("error", JString (message result))]) status))
    (ret internal_server_error).

Definition GET : Async Response :=
  try_catch
    (let* activeSubscribers := getActiveSubscribers in
     ret (NextResponse_json
            (JObject
               [("total", JNumber (Z.of_nat (List.length activeSubscribers)));
                ("subscribers",
                 JArray (List.map
                           (fun sub =>
                              JObject [("email", JString (email sub));
                                       ("subscribedAt", JDate (subscribedAt sub))])
                           activeSubscribers))])
            200))
    (ret internal_server_error).

End SubscribeRoute.

Module UnsubscribeRoute.

(** [POST /api/unsubscribe] *)
Definition POST (request : RequestBody) : Async Response :=
  try_catch
    (let* email := request_json request in
     if falsy email || negb (JS.emailRegex_test (string_of email)) then
       ret (NextResponse_json
              (JObject [("error", JString "Please provide a valid email address")]) 400)
     else
       let* result := unsubscribeByEmail (string_of email) in
       if success result then
         ret (NextResponse_json (JObject [("message", JString (message result))]) 200)
       else
         let status :=
           if JS.includes (message result) "not found" then 404
           else if JS.includes (message result) "already unsubscribed" then 409
           else 400 in
         ret (NextResponse_json (JObject [("error", JString (message result))]) status))
    (ret internal_server_error).

(** [GET /api/unsubscribe?token=xxx&email=xxx]; [token] and [email] are
    the results of [searchParams.get], [None] for an absent parameter. *)
Definition GET (token email : option string) : Async Response :=
  try_catch
    (if falsy token || falsy email then
       ret (NextResponse_json
              (JObject [("error", JString "Missing token or email parameter")]) 400)
     else
       let* result := unsubscribeByToken (string_of email) (string_of token) in
       if success result then
         ret (NextResponse_json (JObject [("message", JString (message result))]) 200)
       else
         let status :=
           if JS.includes (message result) "Invalid token" then 403
           else if JS.includes (message result) "not found" then 404
           else 400 in
         ret (NextResponse_json (JObject [("error", JString (message result))]) status))
    (ret internal_server_error).

End UnsubscribeRoute.


(* ===================================================================== *)
(** ** Vocabulary of the properties *)
(* ===================================================================== *)

(** No document of the collection has address [e]. *)
Definition no_record (e : string) (l : list Subscriber) : Prop :=
  forall d, d ∈ l -> email d <> e.

(** [d], stored under id [i], is the first document with address [e]:
    the record of [e] as far as lookups by address are concerned. *)
Definition first_record (e : string) (l : list Subscriber) (i : nat) (d : Subscriber) : Prop :=
  l !! i = Some d /\ email d = e /\
  forall j d', (j < i)%nat -> l !! j = Some d' -> email d' <> e.

(** What a lookup by address resolves to: the first document with that
    address, or [null] when there is none or when the read is rejected. *)
Definition found (env : Env) (e : string) (w : World) : option (nat * Subscriber) :=
  if read_fails env then None else head (query_from 0 (WhereEmail e) (docs w)).

(** The service call resolved to a result with [success: true]. *)
Definition succeeded (o : Outcome ServiceResult) : bool :=
  match o with
  | Returned r _ => success r
  | Thrown _ => false
  end.

(** The world before any request: an empty collection. *)
Definition empty_world : World := {| docs := []; calls := [] |}.

(** An invocation at time [t] during which Firestore works, without a
    configured secret. *)
Definition quiet (t : Timestamp) : Env :=
  {| UNSUBSCRIBE_SECRET := None; now := t; read_fails := false; write_fails := false |}.

(** Firestore accepts every request of the invocation. *)
Definition reliable (env : Env) : Prop :=
  read_fails env = false /\ write_fails env = false.

(** The object [updatedSubscriber] a reactivation at time [t] sends. *)
Definition updatedSubscriber (t : Timestamp) (tok : string) : Patch :=
  {| p_active := Some true;
     p_subscribed := Some true;
     p_subscribedAt := Some t;
     p_unsubscribeToken := Some tok;
     p_unsubscribedAt := None |}.

(** The document as the collection holds it after a reactivation at time
    [t] with token [tok]. *)
Definition reactivated (t : Timestamp) (tok : string) (d : Subscriber) : Subscriber :=
  {| email := email d;
     subscribedAt := t;
     active := true;
     unsubscribeToken := tok;
     source := source d;
     subscribed := Some true;
     unsubscribedAt := unsubscribedAt d |}.

(** The document as the collection holds it after a deactivation at
    time [t]. *)
Definition deactivated (t : Timestamp) (d : Subscriber) : Subscriber :=
  {| email := email d;
     subscribedAt := subscribedAt d;
     active := false;
     unsubscribeToken := unsubscribeToken d;
     source := source d;
     subscribed := subscribed d;
     unsubscribedAt := Some t |}.

(** The document a first subscription creates. *)
Definition fresh_subscriber (env : Env) (e src : string) : Subscriber :=
  {| email := e;
     subscribedAt := now env;
     active := true;
     unsubscribeToken := generateUnsubscribeToken (UNSUBSCRIBE_SECRET env) e;
     source := Some src;
     subscribed := Some true;
     unsubscribedAt := None |}.

(** A document with its stored token blanked, and two collections that
    differ at most in stored tokens. *)
Definition forget_token (d : Subscriber) : Subscriber :=
  {| email := email d;
     subscribedAt := subscribedAt d;
     active := active d;
     unsubscribeToken := "";
     source := source d;
     subscribed := subscribed d;
     unsubscribedAt := unsubscribedAt d |}.

Definition same_up_to_tokens (l1 l2 : list Subscriber) : Prop :=
  forget_token <$> l1 = forget_token <$> l2.

(** What one operation can do to the collection: nothing, append a fresh
    active document, reactivate an inactive document in place, or
    deactivate an active document in place. *)
Inductive effect (env : Env) (l : list Subscriber) : list Subscriber -> Prop :=
| effect_none : effect env l l
| effect_insert e src : effect env l (l ++ [fresh_subscriber env e src])
| effect_reactivate i d tok :
    l !! i = Some d -> active d = false ->
    effect env l (<[i := reactivated (now env) tok d]> l)
| effect_deactivate i d :
    l !! i = Some d -> active d = true ->
    effect env l (<[i := deactivated (now env) d]> l).

(** *** Histories of the collection *)

(** The three mutating operations of the service. *)
Inductive Op :=
| OpAddSubscriber (email source : string)
| OpUnsubscribeByEmail (email : string)
| OpUnsubscribeByToken (email token : string).

Definition run_op (op : Op) : Async ServiceResult :=
  match op with
  | OpAddSubscriber e src => addSubscriber e src
  | OpUnsubscribeByEmail e => unsubscribeByEmail e
  | OpUnsubscribeByToken e t => unsubscribeByToken e t
  end.

(** The document with id [i] is active after the invocation and was
    absent or inactive before it. *)
Definition became_active (before after : list Subscriber) (i : nat) : bool :=
  match after !! i with
  | Some d' =>
      active d' && match before !! i with Some d => negb (active d) | None => true end
  | None => false
  end.

(** A collection together with its history: the clock reading of the
    latest invocation, and for each document id the clock reading of the
    invocation at which that document last became active. *)
Record Traced := mkTraced {
  world : World;
  clock : Timestamp;
  activatedAt : nat -> option Timestamp
}.

Definition step (op : Op) (env : Env) (s : Traced) : Traced :=
  let w' := final_world (run_op op env (world s)) in
  {| world := w';
     clock := now env;
     activatedAt := fun i =>
       if became_active (docs (world s)) (docs w') i then Some (now env)
       else activatedAt s i |}.

(** The states the three operations can produce from the empty
    collection when the clock never runs backwards. *)
Inductive reachable : Traced -> Prop :=
| reachable_empty (t0 : Timestamp) :
    reachable {| world := empty_world;
                 clock := t0;
                 activatedAt := fun _ => None |}
| reachable_step (s : Traced) (op : Op) (env : Env) :
    reachable s -> clock s <= now env -> reachable (step op env s).

(** The time stamps of every document agree with the history: no
    [subscribedAt] lies in the future; an active document has the
    [subscribedAt] set by the invocation that last made it active; an
    inactive document has an [unsubscribedAt], not earlier than its
    [subscribedAt]. *)
Definition well_stamped (s : Traced) : Prop :=
  forall i d, docs (world s) !! i = Some d ->
    subscribedAt d <= clock s
    /\ (active d = true -> activatedAt s i = Some (subscribedAt d))
    /\ (active d = false ->
        exists u, unsubscribedAt d = Some u /\ subscribedAt d <= u).


(** Subscribe at 10, unsubscribe at 20. *)
Definition subscribed_then_left : Traced :=
  step (OpUnsubscribeByEmail "a@x.com") (quiet 20)
    (step (OpAddSubscriber "a@x.com" "website") (quiet 10)
       {| world := empty_world; clock := 0; activatedAt := fun _ => None |}).

(** *** Shapes of HTTP responses *)


(** The body of the listing route for the subscribers [subs]. *)
Definition listing (subs : list Subscriber) : Json :=
  JObject
    [("total", JNumber (Z.of_nat (List.length subs)));
     ("subscribers",
      JArray (List.map
                (fun sub =>
                   JObject [("email", JString (email sub));
                            ("subscribedAt", JDate (subscribedAt sub))])
                subs))].

(** The generic answers of the service when a request to Firestore is
    rejected. *)
Definition FailedToSubscribe : ServiceResult :=
  result false "Failed to subscribe. Please try again.".
Definition FailedToUnsubscribe : ServiceResult :=
  result false "Failed to unsubscribe. Please try again.".

(** An invocation at time [t] whose reads, respectively writes, are
    rejected. *)
Definition read_outage (t : Timestamp) : Env :=
  {| UNSUBSCRIBE_SECRET := None; now := t; read_fails := true; write_fails := false |}.

(** *** Sample data *)

(** An inactive record of a\@x.com, unsubscribed at time 20. *)
Definition lapsed : Subscriber :=
  {| email := "a@x.com";
     subscribedAt := 10;
     active := false;
     unsubscribeToken := "stale";
     source := Some "website";
     subscribed := Some true;
     unsubscribedAt := Some 20 |}.

(** An active record of a\@x.com. *)
Definition member : Subscriber :=
  {| email := "a@x.com";
     subscribedAt := 10;
     active := true;
     unsubscribeToken := "stale";
     source := Some "website";
     subscribed := Some true;
     unsubscribedAt := None |}.

(** The token of a\@x.com under the fallback secret. *)
Definition token_a : string :=
  "2d8740ba2b8fdee3138c137154005259e2ac79cf750882abe15a4bf25619c9bd".

(** *** Operations, seen from the collection *)

(** The address an operation is about. *)
Definition op_email (op : Op) : string :=
  match op with
  | OpAddSubscriber e _ => e
  | OpUnsubscribeByEmail e => e
  | OpUnsubscribeByToken e _ => e
  end.

(** The world an operation leaves behind. *)
Definition exec (op : Op) (env : Env) (w : World) : World :=
  final_world (run_op op env w).

(** No two documents share an address. *)
Definition one_record_per_email (l : list Subscriber) : Prop :=
  NoDup (email <$> l).

(** What an operation about address [e] can do to the collection, with
    what the code has checked before doing it: nothing; append a fresh
    document for [e], after a lookup that found none (when the lookup
    was answered at all); or rewrite the first record of [e], flipping
    [active] and keeping [email] and [source]. *)
Inductive touches (env : Env) (e : string) (l : list Subscriber) : list Subscriber -> Prop :=
| touch_nothing : touches env e l l
| touch_insert src :
    (read_fails env = false -> no_record e l) ->
    touches env e l (l ++ [fresh_subscriber env e src])
| touch_rewrite i d d' :
    first_record e l i d ->
    email d' = email d -> source d' = source d -> active d' = negb (active d) ->
    touches env e l (<[i := d']> l).

(** What [getActiveSubscribers] resolves to. *)
Definition active_listing (env : Env) (w : World) : list Subscriber :=
  match getActiveSubscribers env w with
  | Returned subs _ => subs
  | Thrown _ => []
  end.

(** The two operations that deactivate. *)
Definition is_unsubscribe (op : Op) : bool :=
  match op with
  | OpAddSubscriber _ _ => false
  | OpUnsubscribeByEmail _ => true
  | OpUnsubscribeByToken _ _ => true
  end.

(* ===================================================================== *)
(** ** URLs: [encodeURIComponent], [URL] and [URLSearchParams] *)
(* ===================================================================== *)

(** Every character of [s] satisfies [p]. *)
Fixpoint all_chars (p : ascii -> bool) (s : string) : bool :=
  match s with
  | EmptyString => true
  | String c s' => p c && all_chars p s'
  end.

Module URI.

Definition code (c : ascii) : N := N_of_ascii c.

(** The characters [encodeURIComponent] leaves alone: letters, digits
    and [- _ . ! ~ * ' ( )]. *)
Definition unreserved (c : ascii) : bool :=
  let n := code c in
  ((65 <=? n) && (n <=? 90) || (97 <=? n) && (n <=? 122) || (48 <=? n) && (n <=? 57)
   || (n =? 45) || (n =? 95) || (n =? 46) || (n =? 33) || (n =? 126)
   || (n =? 42) || (n =? 39) || (n =? 40) || (n =? 41))%N.

Definition upper_hex (d : N) : ascii :=
  ascii_of_N (if (d <? 10)%N then 48 + d else 55 + d).

(** [%XX], the byte in upper-case hexadecimal. *)
Definition escape (c : ascii) : string :=
  String "%" (String (upper_hex (code c / 16)) (String (upper_hex (code c mod 16)) EmptyString)).

(** [encodeURIComponent(s)]: every byte of the UTF-8 encoding that is not
    an unreserved character is escaped. *)
Fixpoint encodeURIComponent (s : string) : string :=
  match s with
  | EmptyString => EmptyString
  | String c s' =>
      if unreserved c then String c (encodeURIComponent s')
      else escape c ++ encodeURIComponent s'
  end.

Definition hex_value (c : ascii) : option N :=
  let n := code c in
  if ((48 <=? n) && (n <=? 57))%N then Some (n - 48)%N
  else if ((65 <=? n) && (n <=? 70))%N then Some (n - 55)%N
  else if ((97 <=? n) && (n <=? 102))%N then Some (n - 87)%N
  else None.

(** Percent-decoding: [%] followed by two hexadecimal digits is the byte
    they denote; any other character stands for itself. *)
Fixpoint percent_decode (s : string) : string :=
  match s with
  | EmptyString => EmptyString
  | String c s1 =>
      if (code c =? 37)%N then
        match s1 with
        | String h (String l s3) =>
            match hex_value h, hex_value l with
            | Some a, Some b => String (ascii_of_N (16 * a + b)) (percent_decode s3)
            | _, _ => String c (percent_decode s1)
            end
        | _ => String c (percent_decode s1)
        end
      else String c (percent_decode s1)
  end.

Fixpoint plus_to_space (s : string) : string :=
  match s with
  | EmptyString => EmptyString
  | String c s' => String (if (code c =? 43)%N then " "%char else c) (plus_to_space s')
  end.

(** The text before the first [sep], and the text after it. *)
Fixpoint before (sep : ascii) (s : string) : string :=
  match s with
  | EmptyString => EmptyString
  | String c s' => if Ascii.eqb c sep then EmptyString else String c (before sep s')
  end.

Fixpoint after (sep : ascii) (s : string) : string :=
  match s with
  | EmptyString => EmptyString
  | String c s' => if Ascii.eqb c sep then s' else after sep s'
  end.

(** The URL parser first drops leading and trailing C0 controls and
    spaces, then every tab and newline. *)
Definition c0_or_space (c : ascii) : bool := (code c <=? 32)%N.

Fixpoint trim_leading (s : string) : string :=
  match s with
  | EmptyString => EmptyString
  | String c s' => if c0_or_space c then trim_leading s' else s
  end.

Fixpoint trim_trailing (s : string) : string :=
  match s with
  | EmptyString => EmptyString
  | String c s' =>
      match trim_trailing s' with
      | EmptyString => if c0_or_space c then EmptyString else String c EmptyString
      | t => String c t
      end
  end.

Definition tab_or_newline (c : ascii) : bool :=
  ((code c =? 9) || (code c =? 10) || (code c =? 13))%N.

Fixpoint remove_tab_newline (s : string) : string :=
  match s with
  | EmptyString => EmptyString
  | String c s' =>
      if tab_or_newline c then remove_tab_newline s' else String c (remove_tab_newline s')
  end.

(** The query of a URL: what stands between the first [?] and the
    fragment. *)
Definition search_of (url : string) : string :=
  after "?" (before "#" (remove_tab_newline (trim_trailing (trim_leading url)))).

(** [split sep s]: the first piece of [s] and the pieces after it. *)
Fixpoint split (sep : ascii) (s : string) : string * list string :=
  match s with
  | EmptyString => (EmptyString, [])
  | String c s' =>
      let (p, ps) := split sep s' in
      if Ascii.eqb c sep then (EmptyString, p :: ps) else (String c p, ps)
  end.

Definition pieces (sep : ascii) (s : string) : list string :=
  let (p, ps) := split sep s in p :: ps.

(** Name and value of one piece: cut at the first [=]; without one the
    value is empty. *)
Definition name_value (piece : string) : string * string :=
  (before "=" piece, after "=" piece).

Definition decode (s : string) : string := percent_decode (plus_to_space s).

(** The [application/x-www-form-urlencoded] parser of [URLSearchParams]. *)
Definition parse (query : string) : list (string * string) :=
  List.flat_map
    (fun piece =>
       match piece with
       | EmptyString => []
       | _ => [(decode (fst (name_value piece)), decode (snd (name_value piece)))]
       end)
    (pieces "&" query).

(** [searchParams.get(name)]: the value of the first pair called [name],
    [null] without one. *)
Fixpoint get (name : string) (pairs : list (string * string)) : option string :=
  match pairs with
  | [] => None
  | (n, v) :: rest => if String.eqb n name then Some v else get name rest
  end.

(** [new URL(url).searchParams.get(name)] *)
Definition searchParams_get (name url : string) : option string :=
  get name (parse (search_of url)).

End URI.

(** [GET /api/unsubscribe] as a function of [request.url]. *)
Definition GET_unsubscribe_request (request_url : string) : Async Response :=
  UnsubscribeRoute.GET (URI.searchParams_get "token" request_url)
                       (URI.searchParams_get "email" request_url).

(** The unsubscribe page, opened at [location]: with a [token] and an
    [email] in its query, the path [handleTokenUnsubscribe] fetches. *)
Definition page_fetch (location : string) : option string :=
  let token := URI.searchParams_get "token" location in
  let emailParam := URI.searchParams_get "email" location in
  if negb (falsy token) && negb (falsy emailParam) then
    Some ("/api/unsubscribe?token=" ++ URI.encodeURIComponent (string_of token)
          ++ "&email=" ++ URI.encodeURIComponent (string_of emailParam))
  else None.

(** A character that is neither a C0 control nor a space, [?] or [#]. *)
Definition plain (c : ascii) : bool :=
  negb (URI.c0_or_space c) && negb (Ascii.eqb c "?") && negb (Ascii.eqb c "#").

(** A lower-case hexadecimal digit. *)
Definition lower_hex (c : ascii) : bool :=
  let n := URI.code c in ((48 <=? n) && (n <=? 57) || (97 <=? n) && (n <=? 102))%N.

(* ===================================================================== *)
(** ** The newsletter automation script *)
(* ===================================================================== *)

Module Automation.

(** [CONFIG], as far as the functions below read it. *)
Record Config := mkConfig {
  GEMINI_API_KEY : option string;
  SENDER_EMAIL : option string;
  SENDER_PASSWORD : option string;
  UNSUBSCRIBE_SECRET : option string;
  APP_URL : option string;
  TEST_MODE : bool;
  FIREBASE_projectId : option string;
  FIREBASE_apiKey : option string
}.

(** [CONFIG[key]] for the keys [validateConfig] asks for. *)
Definition lookup (cfg : Config) (key : string) : option string :=
  if String.eqb key "GEMINI_API_KEY" then GEMINI_API_KEY cfg
  else if String.eqb key "SENDER_EMAIL" then SENDER_EMAIL cfg
  else if String.eqb key "SENDER_PASSWORD" then SENDER_PASSWORD cfg
  else if String.eqb key "UNSUBSCRIBE_SECRET" then UNSUBSCRIBE_SECRET cfg
  else if String.eqb key "APP_URL" then APP_URL cfg
  else None.

Definition required : list string :=
  ["GEMINI_API_KEY"; "SENDER_EMAIL"; "SENDER_PASSWORD"; "UNSUBSCRIBE_SECRET"; "APP_URL"].

Inductive Checked :=
| Valid
| Throws (message : string).

Definition validateConfig (cfg : Config) : Checked :=
  let missing := List.filter (fun key => falsy (lookup cfg key)) required in
  match missing with
  | [] => Valid
  | _ => Throws ("Missing required environment variables: " ++ String.concat ", " missing)
  end.

(** [doc.fields] of a document in the REST answer: the [stringValue] of
    [email], the [timestampValue] of [subscribedAt], the [booleanValue]
    of [active], each absent when the field is missing or of another
    type. *)
Record Fields := mkFields {
  f_email : option string;
  f_subscribedAt : option string;
  f_active : option bool
}.

(** What the request for the collection produced: nothing usable
    ([makeHttpRequest] rejects, or [JSON.parse] throws), or a body with
    or without [documents]; a document may come without [fields]. *)
Inductive Reply :=
| Failed
| Body (documents : option (list (option Fields))).

(** A subscriber object as [sendNewsletter] reads it. *)
Record Recipient := mkRecipient { email : option string }.

Definition fallback (cfg : Config) : list Recipient := [ {| email := SENDER_EMAIL cfg |} ].

(** Truthiness of
    [fields.active?.booleanValue !== false && email && subscribedAt]. *)
Definition isActive (f : Fields) : bool :=
  negb (match f_active f with Some false => true | _ => false end)
  && negb (falsy (f_email f)) && negb (falsy (f_subscribedAt f)).

(** [documents.map(doc => ...)]: reading [fields.email] of a document
    without [fields] throws. *)
Fixpoint all_fields (documents : list (option Fields)) : option (list Fields) :=
  match documents with
  | [] => Some []
  | None :: _ => None
  | Some f :: rest =>
      match all_fields rest with
      | Some fs => Some (f :: fs)
      | None => None
      end
  end.

Definition getSubscribers (cfg : Config) (reply : Reply) : list Recipient :=
  if TEST_MODE cfg then fallback cfg
  else if falsy (FIREBASE_projectId cfg) || falsy (FIREBASE_apiKey cfg) then fallback cfg
  else
    match reply with
    | Failed => fallback cfg
    | Body None => fallback cfg
    | Body (Some documents) =>
        match all_fields documents with
        | None => fallback cfg
        | Some fs =>
            let subscribers :=
              List.map (fun f => {| email := f_email f |})
                (List.filter (fun f => negb (falsy (f_email f)) && isActive f) fs) in
            match subscribers with
            | [] => fallback cfg
            | _ => subscribers
            end
        end
    end.

Record Mail := mkMail {
  to : option string;
  subject : string;
  html : string
}.

(** [generateUnsubscribeToken(subscriber.email)]: [undefined + undefined]
    is not a string and [update] throws on it. *)
Definition token_for (cfg : Config) (email : option string) : option string :=
  match email, UNSUBSCRIBE_SECRET cfg with
  | Some e, secret => Some (Script.generateUnsubscribeToken secret e)
  | None, Some s => Some (SHA256.sha256_hex ("undefined" ++ s))
  | None, None => None
  end.

Definition unsubscribeUrl (cfg : Config) (email : option string) (unsubscribeToken : string)
  : string :=
  JS.ToString (APP_URL cfg) ++ "/unsubscribe?token=" ++ unsubscribeToken
  ++ "&email=" ++ URI.encodeURIComponent (JS.ToString email).

Definition dq : string := String (ascii_of_N 34) EmptyString.
Definition nl : string := String (ascii_of_N 10) EmptyString.

Definition emailContent (cfg : Config) (content unsubscribeUrl : string) : string :=
  nl ++
  "        " ++ content ++ nl ++
  "        " ++ nl ++
  "        <hr style=" ++ dq ++ "margin: 30px 0; border: none; height: 1px; background: #ddd;" ++ dq ++ ">" ++ nl ++
  "        <p style=" ++ dq ++ "font-size: 12px; color: #666; text-align: center;" ++ dq ++ ">" ++ nl ++
  "          You're receiving this because you subscribed to QuanticDaily.<br>" ++ nl ++
  "          <a href=" ++ dq ++ unsubscribeUrl ++ dq ++ " style=" ++ dq ++ "color: #666;" ++ dq ++ ">Unsubscribe</a> | " ++ nl ++
  "          <a href=" ++ dq ++ JS.ToString (APP_URL cfg) ++ dq ++ " style=" ++ dq ++ "color: #666;" ++ dq ++ ">QuanticDaily</a>" ++ nl ++
  "        </p>" ++ nl ++
  "      ".

(** The mail of one recipient, when its token can be computed. *)
Definition mail_for (cfg : Config) (content : string) (subscriber : Recipient) : option Mail :=
  match token_for cfg (email subscriber) with
  | Some unsubscribeToken =>
      Some {| to := email subscriber;
              subject := "QuanticDaily - AI Weekly Digest";
              html := emailContent cfg content
                        (unsubscribeUrl cfg (email subscriber) unsubscribeToken) |}
  | None => None
  end.

(** The loop of [sendNewsletter] from the [i]-th recipient on: [rejects i]
    tells whether the SMTP server refuses the [i]-th send; [outbox]
    collects the mails it has accepted.  An exception inside one
    iteration is caught there. *)
Fixpoint sendNewsletter_from (cfg : Config) (rejects : nat -> bool) (content : string)
    (i : nat) (subscribers : list Recipient) (outbox : list Mail) : list Mail :=
  match subscribers with
  | [] => outbox
  | subscriber :: rest =>
      let outbox' :=
        match mail_for cfg content subscriber with
        | Some mail => if rejects i then outbox else (outbox ++ [mail])%list
        | None => outbox
        end in
      sendNewsletter_from cfg rejects content (S i) rest outbox'
  end.

Definition sendNewsletter (cfg : Config) (rejects : nat -> bool)
    (subscribers : list Recipient) (content : string) : list Mail :=
  sendNewsletter_from cfg rejects content 0 subscribers [].

End Automation.

(** A configuration the script accepts, and one without a secret. *)
Definition sample_config : Automation.Config :=
  {| Automation.GEMINI_API_KEY := Some "key";
     Automation.SENDER_EMAIL := Some "news@x.com";
     Automation.SENDER_PASSWORD := Some "pw";
     Automation.UNSUBSCRIBE_SECRET := Some "s3cret";
     Automation.APP_URL := Some "https://quantic.example";
     Automation.TEST_MODE := false;
     Automation.FIREBASE_projectId := Some "proj";
     Automation.FIREBASE_apiKey := Some "api" |}.

(** An invocation of the web application configured with the same
    secret. *)
Definition configured (t : Timestamp) : Env :=
  {| UNSUBSCRIBE_SECRET := Some "s3cret"; now := t;
     read_fails := false; write_fails := false |}.

(** A character that may stand unescaped in the value of a query
    parameter without ending it: no C0 control or space, [&] or [#]. *)
Definition query_safe (c : ascii) : bool :=
  negb (URI.c0_or_space c) && negb (Ascii.eqb c "&") && negb (Ascii.eqb c "#").

(** What [encodeURIComponent] can produce: unreserved characters and [%]. *)
Definition escaped (c : ascii) : bool := URI.unreserved c || (URI.code c =? 37)%N.


(* ===================================================================== *)
(** ** Test vectors and examples *)
(* ===================================================================== *)

Example K_length : List.length SHA256.K = 64%nat.
Proof. vm_compute. reflexivity. Qed.

Example K_ends : List.nth 0 SHA256.K 0 = 0x428a2f98 /\ List.nth 63 SHA256.K 0 = 0xc67178f2.
Proof. vm_compute. split; reflexivity. Qed.

Example IV_ends : SHA256.ra SHA256.IV = 0x6a09e667 /\ SHA256.rh SHA256.IV = 0x5be0cd19.
Proof. vm_compute. split; reflexivity. Qed.

Example sha256_empty :
  SHA256.sha256_hex "" = "e3b0c44298fc1c149afbf4c8996fb92427ae41e4649b934ca495991b7852b855".
Proof. vm_compute. reflexivity. Qed.

Example sha256_abc :
  SHA256.sha256_hex "abc" = "ba7816bf8f01cfea414140de5dae2223b00361a396177a9cb410ff61f20015ad".
Proof. vm_compute. reflexivity. Qed.

Example sha256_two_blocks :
  SHA256.sha256_hex "abcdbcdecdefdefgefghfghighijhijkijkljklmklmnlmnomnopnopq"
  = "248d6a61d20638b8e5c026930c3e6039a33ce45964ff2167f6ecedd419db06c1".
Proof. vm_compute. reflexivity. Qed.

Example regex_ok : JS.emailRegex_test "a@x.com" = true.
Proof. reflexivity. Qed.

Example regex_subdomain : JS.emailRegex_test "a.b@mail.x.org" = true.
Proof. reflexivity. Qed.

Example regex_no_tld : JS.emailRegex_test "a@x" = false.
Proof. reflexivity. Qed.

Example regex_two_at : JS.emailRegex_test "a@b@x.com" = false.
Proof. reflexivity. Qed.

Example regex_space : JS.emailRegex_test "a b@x.com" = false.
Proof. reflexivity. Qed.

Example regex_trailing_dot : JS.emailRegex_test "a@x." = false.
Proof. reflexivity. Qed.

Example includes_mid : JS.includes "This email is already subscribed" "already subscribed" = true.
Proof. reflexivity. Qed.

Example includes_gap : JS.includes "abc" "ac" = false.
Proof. reflexivity. Qed.

Example includes_invalid_token :
  JS.includes "Invalid unsubscribe token" "Invalid token" = false.
Proof. reflexivity. Qed.

(* ===================================================================== *)
(** ** Lookups *)
(* ===================================================================== *)

Arguments generateUnsubscribeToken : simpl never.

Lemma query_from_nil (i : nat) (q : Query) (l : list Subscriber) :
  query_from i q l = [] <-> forall d, d ∈ l -> matches q d = false.
Proof.
  revert i. induction l as [|a l IH]; intros i; simpl.
  - split; [intros _ d Hd; inversion Hd | reflexivity].
  - destruct (matches q a) eqn:Ha.
    + split; [discriminate|]. intros H.
      specialize (H a (proj2 (elem_of_cons l a a) (or_introl eq_refl))). congruence.
    + rewrite IH. split.
      * intros H d Hd. apply elem_of_cons in Hd as [->|Hd]; auto.
      * intros H d Hd. apply H. apply elem_of_cons. now right.
Qed.

Lemma query_from_head (i : nat) (q : Query) (l : list Subscriber) j d rest :
  query_from i q l = (j, d) :: rest ->
  exists k, j = (i + k)%nat /\ l !! k = Some d /\ matches q d = true /\
            forall k' d', (k' < k)%nat -> l !! k' = Some d' -> matches q d' = false.
Proof.
  revert i. induction l as [|a l IH]; intros i; simpl; [discriminate|].
  destruct (matches q a) eqn:Ha.
  - intros [= <- <- _]. exists 0%nat.
    split; [lia|]. split; [reflexivity|]. split; [exact Ha|].
    intros k' d' Hk. lia.
  - intros H. destruct (IH _ H) as (k & -> & Hk & Hm & Hfirst).
    exists (S k).
    split; [lia|]. split; [exact Hk|]. split; [exact Hm|].
    intros [|k'] d' Hlt; simpl.
    + intros [= <-]. exact Ha.
    + apply Hfirst. lia.
Qed.

Lemma query_from_first (i : nat) (q : Query) (l : list Subscriber) k d :
  l !! k = Some d -> matches q d = true ->
  (forall k' d', (k' < k)%nat -> l !! k' = Some d' -> matches q d' = false) ->
  exists rest, query_from i q l = ((i + k)%nat, d) :: rest.
Proof.
  revert i k. induction l as [|a l IH]; intros i k Hk Hm Hfirst; [discriminate|].
  destruct k as [|k]; simpl in *.
  - injection Hk as ->. rewrite Hm, Nat.add_0_r. eauto.
  - rewrite (Hfirst 0%nat a) by (auto; lia).
    destruct (IH (S i) k Hk Hm) as [rest Hrest].
    + intros k' d' Hlt Hd'. apply (Hfirst (S k') d'); auto. lia.
    + exists rest. rewrite Hrest. f_equal. f_equal. lia.
Qed.

Lemma matches_email (e : string) (d : Subscriber) :
  matches (WhereEmail e) d = true <-> email d = e.
Proof. simpl. apply String.eqb_eq. Qed.

Lemma matches_email_false (e : string) (d : Subscriber) :
  matches (WhereEmail e) d = false <-> email d <> e.
Proof. simpl. apply String.eqb_neq. Qed.

Lemma getSubscriberByEmail_eq (e : string) (env : Env) (w : World) :
  getSubscriberByEmail e env w = Returned (found env e w) (log (CGetDocs (WhereEmail e)) w).
Proof.
  unfold getSubscriberByEmail, found, try_catch, bind, getDocs, ret.
  destruct (read_fails env); [reflexivity|].
  destruct (query_from 0 (WhereEmail e) (docs w)); reflexivity.
Qed.

Lemma found_no_record (env : Env) (e : string) (w : World) :
  no_record e (docs w) -> found env e w = None.
Proof.
  intros Hno. unfold found. destruct (read_fails env); [reflexivity|].
  assert (query_from 0 (WhereEmail e) (docs w) = []) as ->; [|reflexivity].
  apply query_from_nil. intros d Hd. apply matches_email_false. auto.
Qed.

Lemma found_first_record (env : Env) (e : string) (w : World) i d :
  read_fails env = false -> first_record e (docs w) i d -> found env e w = Some (i, d).
Proof.
  intros Hr (Hi & He & Hfirst). unfold found. rewrite Hr.
  destruct (query_from_first 0 (WhereEmail e) (docs w) i d) as [rest ->]; auto.
  - now apply matches_email.
  - intros k' d' Hlt Hd'. apply matches_email_false. eauto.
Qed.

Lemma found_Some (env : Env) (e : string) (w : World) i d :
  found env e w = Some (i, d) -> read_fails env = false /\ first_record e (docs w) i d.
Proof.
  unfold found. destruct (read_fails env); [discriminate|].
  destruct (query_from 0 (WhereEmail e) (docs w)) as [|[j d'] rest] eqn:Hq; [discriminate|].
  intros [= -> ->]. split; [reflexivity|].
  destruct (query_from_head _ _ _ _ _ _ Hq) as (k & -> & Hk & Hm & Hfirst).
  repeat split; simpl; auto.
  - now apply matches_email.
  - intros j d' Hlt Hd'. apply matches_email_false. eauto.
Qed.

Lemma found_None (env : Env) (e : string) (w : World) :
  found env e w = None -> read_fails env = true \/ no_record e (docs w).
Proof.
  unfold found. destruct (read_fails env); [auto|].
  destruct (query_from 0 (WhereEmail e) (docs w)) eqn:Hq; [|discriminate].
  intros _. right. intros d Hd. apply matches_email_false.
  exact (proj1 (query_from_nil _ _ _) Hq d Hd).
Qed.

(* ===================================================================== *)
(** ** The service functions, case by case *)
(* ===================================================================== *)

Lemma token_here_eq (e : string) (env : Env) (w : World) :
  generateUnsubscribeToken_here e env w
  = Returned (generateUnsubscribeToken (UNSUBSCRIBE_SECRET env) e) w.
Proof. reflexivity. Qed.

(** Unfold the promise plumbing of a service function down to its lookup. *)
Ltac to_lookup :=
  unfold try_catch, bind; rewrite ?token_here_eq; rewrite ?getSubscriberByEmail_eq.

Lemma addSubscriber_absent (env : Env) (w : World) (e src : string) :
  found env e w = None -> write_fails env = false ->
  exists w',
    addSubscriber e src env w
    = Returned {| success := true;
                  message := "Successfully subscribed to QuanticDaily!";
                  subscriber := Some (List.length (docs w), fresh_subscriber env e src) |} w'
    /\ docs w' = (docs w ++ [fresh_subscriber env e src])%list.
Proof.
  intros Hf Hw. unfold addSubscriber. to_lookup. rewrite Hf.
  unfold Timestamp_now, addDoc, ret. rewrite token_here_eq. simpl. rewrite Hw.
  eexists. split; reflexivity.
Qed.

Lemma addSubscriber_active (env : Env) (w : World) (e src : string) i d :
  found env e w = Some (i, d) -> active d = true ->
  exists w', addSubscriber e src env w = Returned AlreadySubscribed w' /\ docs w' = docs w.
Proof.
  intros Hf Ha. unfold addSubscriber. to_lookup. rewrite Hf, Ha.
  eexists. split; reflexivity.
Qed.

Lemma addSubscriber_inactive (env : Env) (w : World) (e src : string) i d :
  found env e w = Some (i, d) -> active d = false -> write_fails env = false ->
  let d' := reactivated (now env) (generateUnsubscribeToken (UNSUBSCRIBE_SECRET env) e) d in
  exists w',
    addSubscriber e src env w
    = Returned {| success := true;
                  message := "Successfully resubscribed to QuanticDaily!";
                  subscriber := Some (i, d') |} w'
    /\ docs w' = <[i := d']> (docs w)
    /\ calls w'
       = (calls w ++ [CGetDocs (WhereEmail e);
                      CUpdateDoc i (updatedSubscriber (now env)
                                      (generateUnsubscribeToken (UNSUBSCRIBE_SECRET env) e))])%list.
Proof.
  intros Hf Ha Hw d'. unfold addSubscriber. to_lookup. rewrite Hf, Ha.
  apply found_Some in Hf as (_ & Hi & _).
  unfold Timestamp_now, updateDoc, ret. rewrite token_here_eq. simpl.
  rewrite Hw, Hi. eexists. split; [reflexivity|]. split; [reflexivity|].
  simpl. now rewrite <- app_assoc.
Qed.

Lemma unsubscribeByEmail_absent (env : Env) (w : World) (e : string) :
  found env e w = None ->
  exists w', unsubscribeByEmail e env w = Returned NotFound w' /\ docs w' = docs w.
Proof.
  intros Hf. unfold unsubscribeByEmail. to_lookup. rewrite Hf.
  eexists. split; reflexivity.
Qed.

Lemma unsubscribeByEmail_inactive (env : Env) (w : World) (e : string) i d :
  found env e w = Some (i, d) -> active d = false ->
  exists w', unsubscribeByEmail e env w = Returned AlreadyInactive w' /\ docs w' = docs w.
Proof.
  intros Hf Ha. unfold unsubscribeByEmail. to_lookup. rewrite Hf, Ha.
  eexists. split; reflexivity.
Qed.

Lemma unsubscribeByEmail_active (env : Env) (w : World) (e : string) i d :
  found env e w = Some (i, d) -> active d = true -> write_fails env = false ->
  exists w',
    unsubscribeByEmail e env w
    = Returned (result true "Successfully unsubscribed from QuanticDaily!") w'
    /\ docs w' = <[i := deactivated (now env) d]> (docs w).
Proof.
  intros Hf Ha Hw. unfold unsubscribeByEmail. to_lookup. rewrite Hf, Ha.
  apply found_Some in Hf as (_ & Hi & _).
  unfold Timestamp_now, updateDoc, ret. simpl. rewrite Hw, Hi.
  eexists. split; reflexivity.
Qed.

Lemma unsubscribeByToken_wrong (env : Env) (w : World) (e t : string) :
  t <> generateUnsubscribeToken (UNSUBSCRIBE_SECRET env) e ->
  unsubscribeByToken e t env w = Returned InvalidToken w.
Proof.
  intros Ht. unfold unsubscribeByToken. to_lookup.
  apply String.eqb_neq in Ht. rewrite Ht. reflexivity.
Qed.

Lemma unsubscribeByToken_right (env : Env) (w : World) (e : string) :
  unsubscribeByToken e (generateUnsubscribeToken (UNSUBSCRIBE_SECRET env) e) env w
  = let w1 := log (CGetDocs (WhereEmail e)) w in
    match found env e w with
    | None => Returned NotFound w1
    | Some (id, sub) =>
        if negb (active sub) then Returned (result true "This email is already unsubscribed") w1
        else
          match updateDoc id (deactivate (now env)) env w1 with
          | Returned _ w2 =>
              Returned (result true "Successfully unsubscribed from QuanticDaily!") w2
          | Thrown w2 => Returned (result false "Failed to unsubscribe. Please try again.") w2
          end
    end.
Proof.
  unfold unsubscribeByToken. to_lookup. rewrite String.eqb_refl. simpl.
  rewrite getSubscriberByEmail_eq.
  destruct (found env e w) as [[id sub]|]; [|reflexivity].
  destruct (active sub); simpl; [|reflexivity].
  unfold Timestamp_now, ret.
  destruct (updateDoc id (deactivate (now env)) env _); reflexivity.
Qed.

(* ===================================================================== *)
(** ** Subscription *)
(* ===================================================================== *)

(** C2. [addSubscriber] splits three ways on the collection.  With no
    record of the address it appends one new document: active, with the
    current time as [subscribedAt] and a newly computed token.  With an
    active record it reports [AlreadySubscribed] and the collection is
    unchanged.  With an inactive record it rewrites that same document in
    place (the collection keeps its length): active again, [subscribedAt]
    the current time, the token recomputed. *)
Theorem addSubscriber_three_way (env : Env) (w : World) (e src : string) :
  reliable env ->
  (no_record e (docs w) ->
   exists w',
     addSubscriber e src env w
     = Returned {| success := true;
                   message := "Successfully subscribed to QuanticDaily!";
                   subscriber := Some (List.length (docs w), fresh_subscriber env e src) |} w'
     /\ docs w' = (docs w ++ [fresh_subscriber env e src])%list
     /\ active (fresh_subscriber env e src) = true
     /\ subscribedAt (fresh_subscriber env e src) = now env
     /\ unsubscribeToken (fresh_subscriber env e src)
        = SHA256.sha256_hex (e ++ JS.or_default (UNSUBSCRIBE_SECRET env) "development-secret-key"))
  /\ (forall i d, first_record e (docs w) i d -> active d = true ->
      exists w',
        addSubscriber e src env w = Returned AlreadySubscribed w' /\ docs w' = docs w)
  /\ (forall i d, first_record e (docs w) i d -> active d = false ->
      exists w' d',
        addSubscriber e src env w
        = Returned {| success := true;
                      message := "Successfully resubscribed to QuanticDaily!";
                      subscriber := Some (i, d') |} w'
        /\ docs w' = <[i := d']> (docs w)
        /\ List.length (docs w') = List.length (docs w)
        /\ docs w' !! i = Some d'
        /\ active d' = true
        /\ subscribedAt d' = now env
        /\ unsubscribeToken d'
           = SHA256.sha256_hex (e ++ JS.or_default (UNSUBSCRIBE_SECRET env) "development-secret-key")).
Proof.
  intros [Hr Hw]. split; [|split].
  - intros Hno.
    destruct (addSubscriber_absent env w e src (found_no_record env e w Hno) Hw)
      as (w' & Hrun & Hdocs).
    exists w'. repeat split; assumption.
  - intros i d Hfirst Ha.
    exact (addSubscriber_active env w e src i d (found_first_record env e w i d Hr Hfirst) Ha).
  - intros i d Hfirst Ha.
    destruct (addSubscriber_inactive env w e src i d
                (found_first_record env e w i d Hr Hfirst) Ha Hw) as (w' & Hrun & Hdocs & _).
    eexists w', _. split; [exact Hrun|]. split; [exact Hdocs|].
    destruct Hfirst as (Hi & _).
    rewrite Hdocs. split; [apply length_insert|].
    split; [|repeat split].
    apply list_lookup_insert_eq. now apply lookup_lt_Some with d.
Qed.

Lemma first_record_head (d : Subscriber) (l : list Subscriber) :
  first_record (email d) (d :: l) 0 d.
Proof. repeat split. intros j d' Hj. lia. Qed.

Lemma addSubscriber_three_way_witness :
  reliable (quiet 30) /\
  exists w' d',
    addSubscriber "a@x.com" "website" (quiet 30) {| docs := [lapsed]; calls := [] |}
    = Returned {| success := true;
                  message := "Successfully resubscribed to QuanticDaily!";
                  subscriber := Some (0%nat, d') |} w'
    /\ docs w' = [d'] /\ active d' = true /\ subscribedAt d' = 30.
Proof.
  split; [split; reflexivity|].
  destruct (addSubscriber_three_way (quiet 30) {| docs := [lapsed]; calls := [] |}
              "a@x.com" "website" (conj eq_refl eq_refl)) as (_ & _ & H).
  destruct (H 0%nat lapsed (first_record_head lapsed []) eq_refl)
    as (w' & d' & Hrun & Hdocs & _ & _ & Ha & Ht & _).
  exists w', d'. repeat split; assumption.
Defined.

(* ===================================================================== *)
(** ** Unsubscription *)
(* ===================================================================== *)

(** C3. [unsubscribeByEmail] reports [NotFound] when the collection has
    no record of the address and [AlreadyInactive] when the record is
    inactive, in both cases leaving the collection as it was; on an
    active record it sets [active] to false and stamps [unsubscribedAt]
    with the current time. *)
Theorem unsubscribeByEmail_cases (env : Env) (w : World) (e : string) :
  reliable env ->
  (no_record e (docs w) ->
   exists w', unsubscribeByEmail e env w = Returned NotFound w' /\ docs w' = docs w)
  /\ (forall i d, first_record e (docs w) i d -> active d = false ->
      exists w', unsubscribeByEmail e env w = Returned AlreadyInactive w' /\ docs w' = docs w)
  /\ (forall i d, first_record e (docs w) i d -> active d = true ->
      exists w' d',
        unsubscribeByEmail e env w
        = Returned (result true "Successfully unsubscribed from QuanticDaily!") w'
        /\ docs w' = <[i := d']> (docs w)
        /\ docs w' !! i = Some d'
        /\ d' = deactivated (now env) d
        /\ active d' = false
        /\ unsubscribedAt d' = Some (now env)).
Proof.
  intros [Hr Hw]. split; [|split].
  - intros Hno. apply unsubscribeByEmail_absent. now apply found_no_record.
  - intros i d Hfirst Ha.
    apply unsubscribeByEmail_inactive with i d; [|exact Ha].
    now apply found_first_record.
  - intros i d Hfirst Ha.
    destruct (unsubscribeByEmail_active env w e i d
                (found_first_record env e w i d Hr Hfirst) Ha Hw) as (w' & Hrun & Hdocs).
    exists w', (deactivated (now env) d).
    split; [exact Hrun|]. split; [exact Hdocs|]. split; [|repeat split].
    rewrite Hdocs. apply list_lookup_insert_eq.
    destruct Hfirst as (Hi & _). now apply lookup_lt_Some with d.
Qed.

Lemma unsubscribeByEmail_cases_witness :
  reliable (quiet 30) /\
  (exists w', unsubscribeByEmail "a@x.com" (quiet 30) empty_world = Returned NotFound w'
              /\ docs w' = []) /\
  (exists w', unsubscribeByEmail "a@x.com" (quiet 30) {| docs := [lapsed]; calls := [] |}
              = Returned AlreadyInactive w'
              /\ docs w' = [lapsed]) /\
  (exists w', unsubscribeByEmail "a@x.com" (quiet 30) {| docs := [member]; calls := [] |}
              = Returned (result true "Successfully unsubscribed from QuanticDaily!") w'
              /\ docs w' = [deactivated 30 member]).
Proof.
  split; [split; reflexivity|].
  split; [|split].
  - destruct (unsubscribeByEmail_cases (quiet 30) empty_world "a@x.com" (conj eq_refl eq_refl))
      as (H & _ & _).
    apply H. intros d Hd. inversion Hd.
  - destruct (unsubscribeByEmail_cases (quiet 30) {| docs := [lapsed]; calls := [] |}
                "a@x.com" (conj eq_refl eq_refl)) as (_ & H & _).
    exact (H 0%nat lapsed (first_record_head lapsed []) eq_refl).
  - destruct (unsubscribeByEmail_cases (quiet 30) {| docs := [member]; calls := [] |}
                "a@x.com" (conj eq_refl eq_refl)) as (_ & _ & H).
    destruct (H 0%nat member (first_record_head member []) eq_refl)
      as (w' & d' & Hrun & Hdocs & _ & -> & _).
    exists w'. split; assumption.
Defined.

(** Whatever Firestore does, the two failure answers of
    [unsubscribeByEmail] leave the collection untouched. *)
Lemma unsubscribeByEmail_failure_frame (env : Env) (w : World) (e : string) r w' :
  unsubscribeByEmail e env w = Returned r w' -> success r = false -> docs w' = docs w.
Proof.
  unfold unsubscribeByEmail. to_lookup.
  destruct (found env e w) as [[i d]|]; [|intros [= <- <-]; reflexivity].
  destruct (active d); simpl; [|intros [= <- <-]; reflexivity].
  unfold Timestamp_now, updateDoc, ret. simpl.
  destruct (write_fails env); [intros [= <- <-]; reflexivity|].
  destruct (docs w !! i); intros [= <- <-]; [discriminate|reflexivity].
Qed.

(** C4. On an inactive record the two entry points disagree:
    [unsubscribeByToken] with the right token answers with success and
    changes nothing, [unsubscribeByEmail] answers [AlreadyInactive]. *)
Theorem unsubscribe_paths_disagree_when_inactive (env : Env) (w : World) (e : string) i d :
  read_fails env = false ->
  first_record e (docs w) i d -> active d = false ->
  (exists w',
     unsubscribeByToken e (generateUnsubscribeToken (UNSUBSCRIBE_SECRET env) e) env w
     = Returned (result true "This email is already unsubscribed") w'
     /\ docs w' = docs w)
  /\ (exists w', unsubscribeByEmail e env w = Returned AlreadyInactive w' /\ docs w' = docs w).
Proof.
  intros Hr Hfirst Ha.
  pose proof (found_first_record env e w i d Hr Hfirst) as Hf.
  split.
  - rewrite unsubscribeByToken_right. cbv zeta. rewrite Hf, Ha.
    eexists. split; reflexivity.
  - now apply unsubscribeByEmail_inactive with i d.
Qed.

Lemma unsubscribe_paths_disagree_when_inactive_witness :
  read_fails (quiet 30) = false /\
  first_record "a@x.com" [lapsed] 0 lapsed /\
  active lapsed = false /\
  (exists w',
     unsubscribeByToken "a@x.com" (generateUnsubscribeToken None "a@x.com") (quiet 30)
                        {| docs := [lapsed]; calls := [] |}
     = Returned (result true "This email is already unsubscribed") w'
     /\ docs w' = [lapsed]) /\
  (exists w',
     unsubscribeByEmail "a@x.com" (quiet 30) {| docs := [lapsed]; calls := [] |}
     = Returned AlreadyInactive w'
     /\ docs w' = [lapsed]).
Proof.
  split; [reflexivity|]. split; [apply (first_record_head lapsed [])|].
  split; [reflexivity|].
  exact (unsubscribe_paths_disagree_when_inactive (quiet 30) {| docs := [lapsed]; calls := [] |}
           "a@x.com" 0%nat lapsed eq_refl (first_record_head lapsed []) eq_refl).
Defined.

(** C1, as stated, is refuted: the right token for an address the
    collection does not know is answered with [NotFound], not with
    success. *)
Lemma unsubscribeByToken_right_token_unknown_email :
  token_a = SHA256.sha256_hex ("a@x.com" ++ "development-secret-key")
  /\ unsubscribeByToken "a@x.com" token_a (quiet 30) empty_world
     = Returned NotFound (log (CGetDocs (WhereEmail "a@x.com")) empty_world)
  /\ ~ (succeeded (unsubscribeByToken "a@x.com" token_a (quiet 30) empty_world) = true
        <-> token_a = SHA256.sha256_hex ("a@x.com" ++ "development-secret-key")).
Proof.
  assert (Htok : token_a = SHA256.sha256_hex ("a@x.com" ++ "development-secret-key"))
    by (vm_compute; reflexivity).
  assert (Hrun : unsubscribeByToken "a@x.com" token_a (quiet 30) empty_world
                 = Returned NotFound (log (CGetDocs (WhereEmail "a@x.com")) empty_world))
    by (vm_compute; reflexivity).
  split; [exact Htok|]. split; [exact Hrun|].
  intros [_ H]. specialize (H Htok). rewrite Hrun in H. discriminate H.
Qed.

(** C1, amended.  Success requires the supplied token to be the
    recomputed one, [sha256(email + secret)].  Any other token is answered
    with [InvalidToken] whatever the collection holds, and the world is
    returned as it was received: no request has been sent to Firestore.
    With the recomputed token the answer depends on the collection:
    [NotFound] when it has no record of the address, success when it has
    one and Firestore accepts the requests. *)
Theorem unsubscribeByToken_checks_token_first (env : Env) (w : World) (e t : string) :
  let expected := generateUnsubscribeToken (UNSUBSCRIBE_SECRET env) e in
  expected = SHA256.sha256_hex (e ++ JS.or_default (UNSUBSCRIBE_SECRET env) "development-secret-key")
  /\ (succeeded (unsubscribeByToken e t env w) = true -> t = expected)
  /\ (t <> expected -> unsubscribeByToken e t env w = Returned InvalidToken w)
  /\ (t = expected -> no_record e (docs w) ->
      exists w', unsubscribeByToken e t env w = Returned NotFound w' /\ docs w' = docs w)
  /\ (t = expected -> reliable env ->
      forall i d, first_record e (docs w) i d ->
                  succeeded (unsubscribeByToken e t env w) = true).
Proof.
  intros expected. split; [reflexivity|]. split; [|split; [|split]].
  - intros Hs. destruct (String.eqb_spec t expected) as [Heq|Hne]; [exact Heq|].
    rewrite (unsubscribeByToken_wrong env w e t Hne) in Hs. discriminate Hs.
  - apply unsubscribeByToken_wrong.
  - intros -> Hno. unfold expected. rewrite unsubscribeByToken_right. cbv zeta.
    rewrite (found_no_record env e w Hno). eexists. split; reflexivity.
  - intros -> [Hr Hw] i d Hfirst. unfold expected. rewrite unsubscribeByToken_right. cbv zeta.
    rewrite (found_first_record env e w i d Hr Hfirst).
    destruct (active d); simpl; [|reflexivity].
    unfold updateDoc. simpl. rewrite Hw.
    destruct Hfirst as (-> & _). reflexivity.
Qed.

Lemma unsubscribeByToken_checks_token_first_witness :
  "wrong" <> generateUnsubscribeToken None "a@x.com"
  /\ unsubscribeByToken "a@x.com" "wrong" (quiet 30) {| docs := [member]; calls := [] |}
     = Returned InvalidToken {| docs := [member]; calls := [] |}
  /\ succeeded (unsubscribeByToken "a@x.com" (generateUnsubscribeToken None "a@x.com")
                  (quiet 30) {| docs := [member]; calls := [] |}) = true.
Proof.
  assert (Hne : "wrong" <> generateUnsubscribeToken None "a@x.com")
    by (vm_compute; discriminate).
  split; [exact Hne|]. split.
  - destruct (unsubscribeByToken_checks_token_first
                (quiet 30) {| docs := [member]; calls := [] |} "a@x.com" "wrong")
      as (_ & _ & H & _).
    exact (H Hne).
  - destruct (unsubscribeByToken_checks_token_first
                (quiet 30) {| docs := [member]; calls := [] |} "a@x.com"
                (generateUnsubscribeToken None "a@x.com"))
      as (_ & _ & _ & _ & H).
    exact (H eq_refl (conj eq_refl eq_refl) 0%nat member (first_record_head member [])).
Defined.

(* ===================================================================== *)
(** ** The stored token is never consulted *)
(* ===================================================================== *)

Lemma forget_token_patch (p : Patch) (d1 d2 : Subscriber) :
  forget_token d1 = forget_token d2 ->
  forget_token (apply_patch p d1) = forget_token (apply_patch p d2).
Proof.
  destruct d1, d2. unfold forget_token, apply_patch. simpl.
  intros [= -> -> -> -> -> ->]. reflexivity.
Qed.

Lemma query_from_forget (i : nat) (q : Query) (l1 l2 : list Subscriber) :
  same_up_to_tokens l1 l2 ->
  match head (query_from i q l1), head (query_from i q l2) with
  | None, None => True
  | Some (i1, d1), Some (i2, d2) => i1 = i2 /\ forget_token d1 = forget_token d2
  | _, _ => False
  end.
Proof.
  unfold same_up_to_tokens. revert i l2.
  induction l1 as [|a l1 IH]; intros i [|b l2] Heq; try discriminate Heq; simpl; [exact I|].
  assert (Hab : forget_token a = forget_token b)
    by exact (f_equal (fun l => default (forget_token a) (head l)) Heq).
  assert (Hrest : forget_token <$> l1 = forget_token <$> l2)
    by exact (f_equal (@tail _) Heq).
  assert (matches q a = matches q b) as Hm.
  { destruct q; simpl.
    - now rewrite (f_equal email Hab : email a = email b).
    - exact (f_equal active Hab). }
  rewrite Hm. destruct (matches q b); simpl; [auto|]. now apply IH.
Qed.

Lemma found_forget (env : Env) (e : string) (w1 w2 : World) :
  same_up_to_tokens (docs w1) (docs w2) ->
  match found env e w1, found env e w2 with
  | None, None => True
  | Some (i1, d1), Some (i2, d2) => i1 = i2 /\ forget_token d1 = forget_token d2
  | _, _ => False
  end.
Proof.
  intros H. unfold found. destruct (read_fails env); [exact I|].
  now apply query_from_forget.
Qed.

(** C6. The verification of [unsubscribeByToken] never reads the stored
    [unsubscribeToken]: on two collections that differ only in stored
    tokens the call gives the same answer, sends the same requests and
    leaves collections that again differ only in stored tokens; and the
    answer is [InvalidToken] exactly when the supplied token differs from
    the one recomputed from the address and the secret. *)
Theorem unsubscribeByToken_ignores_stored_tokens (env : Env) (e t : string) (w1 w2 : World) :
  same_up_to_tokens (docs w1) (docs w2) ->
  exists r w1' w2' sent,
    unsubscribeByToken e t env w1 = Returned r w1'
    /\ unsubscribeByToken e t env w2 = Returned r w2'
    /\ same_up_to_tokens (docs w1') (docs w2')
    /\ calls w1' = (calls w1 ++ sent)%list
    /\ calls w2' = (calls w2 ++ sent)%list
    /\ (r = InvalidToken <-> t <> generateUnsubscribeToken (UNSUBSCRIBE_SECRET env) e).
Proof.
  intros Hsame.
  destruct (String.eqb_spec t (generateUnsubscribeToken (UNSUBSCRIBE_SECRET env) e))
    as [->|Hne].
  - assert (Hvalid : forall r, success r = true \/ message r <> "Invalid unsubscribe token" ->
                r = InvalidToken <->
                generateUnsubscribeToken (UNSUBSCRIBE_SECRET env) e
                <> generateUnsubscribeToken (UNSUBSCRIBE_SECRET env) e).
    { intros r Hr. split; [|intros H; now contradict H].
      intros ->. destruct Hr as [Hr|Hr]; [discriminate Hr|now contradict Hr]. }
    rewrite !unsubscribeByToken_right. cbv zeta.
    pose proof (found_forget env e w1 w2 Hsame) as Hf.
    destruct (found env e w1) as [[i1 d1]|] eqn:Hf1;
      destruct (found env e w2) as [[i2 d2]|] eqn:Hf2; try contradiction.
    + destruct Hf as [<- Hd].
      rewrite <- (f_equal active Hd : active d1 = active d2).
      destruct (active d1); simpl.
      * apply found_Some in Hf1 as (_ & Hi1 & _). apply found_Some in Hf2 as (_ & Hi2 & _).
        unfold updateDoc. simpl. destruct (write_fails env).
        -- eexists _, _, _, [_; _].
           do 2 (split; [reflexivity|]). split; [exact Hsame|].
           do 2 (split; [simpl; rewrite <- app_assoc; reflexivity|]).
           apply Hvalid. right. discriminate.
        -- rewrite Hi1, Hi2. eexists _, _, _, [_; _].
           do 2 (split; [reflexivity|]). split.
           { unfold same_up_to_tokens. simpl. rewrite !list_fmap_insert.
             rewrite (forget_token_patch (deactivate (now env)) d1 d2 Hd).
             now rewrite Hsame. }
           do 2 (split; [simpl; rewrite <- app_assoc; reflexivity|]).
           apply Hvalid. left. reflexivity.
      * eexists _, _, _, [_].
        do 2 (split; [reflexivity|]). split; [exact Hsame|].
        do 2 (split; [reflexivity|]).
        apply Hvalid. left. reflexivity.
    + eexists _, _, _, [_].
      do 2 (split; [reflexivity|]). split; [exact Hsame|].
      do 2 (split; [reflexivity|]).
      apply Hvalid. right. discriminate.
  - rewrite !(unsubscribeByToken_wrong env _ e t Hne).
    exists InvalidToken, w1, w2, []. rewrite !app_nil_r.
    repeat split; auto.
Qed.

Lemma unsubscribeByToken_ignores_stored_tokens_witness :
  same_up_to_tokens [member] [fresh_subscriber (quiet 10) "a@x.com" "website"]
  /\ exists r w1' w2' sent,
      unsubscribeByToken "a@x.com" token_a (quiet 30) {| docs := [member]; calls := [] |}
      = Returned r w1'
      /\ unsubscribeByToken "a@x.com" token_a (quiet 30)
           {| docs := [fresh_subscriber (quiet 10) "a@x.com" "website"]; calls := [] |}
         = Returned r w2'
      /\ same_up_to_tokens (docs w1') (docs w2')
      /\ calls w1' = sent /\ calls w2' = sent.
Proof.
  assert (Hsame : same_up_to_tokens [member] [fresh_subscriber (quiet 10) "a@x.com" "website"])
    by reflexivity.
  split; [exact Hsame|].
  destruct (unsubscribeByToken_ignores_stored_tokens (quiet 30) "a@x.com" token_a
              {| docs := [member]; calls := [] |}
              {| docs := [fresh_subscriber (quiet 10) "a@x.com" "website"]; calls := [] |}
              Hsame)
    as (r & w1' & w2' & sent & H1 & H2 & H3 & H4 & H5 & _).
  exists r, w1', w2', sent. repeat split; assumption.
Defined.

(* ===================================================================== *)
(** ** Reactivation is not a reset *)
(* ===================================================================== *)

Lemma last_app_two {A : Type} (l : list A) (a b d : A) :
  List.last (l ++ [a; b])%list d = b.
Proof. change [a; b] with ([a] ++ [b])%list. rewrite app_assoc. apply List.last_last. Qed.

(** C10. A successful [addSubscriber] on an inactive record sends one
    update that mentions [active], [subscribed], [subscribedAt] and
    [unsubscribeToken] only.  The document keeps its [email], [source]
    and [unsubscribedAt], and every other document is untouched; so when
    the old [unsubscribedAt] is earlier than the current time, the record
    is active again and still carries an [unsubscribedAt] earlier than
    its new [subscribedAt]. *)
Theorem reactivation_keeps_unsubscribedAt_and_source
    (env : Env) (w : World) (e src : string) (i : nat) (d : Subscriber) :
  reliable env -> first_record e (docs w) i d -> active d = false ->
  exists r w' d',
    addSubscriber e src env w = Returned r w'
    /\ success r = true
    /\ List.last (calls w') (CGetDocs WhereActive)
       = CUpdateDoc i {| p_active := Some true;
                         p_subscribed := Some true;
                         p_subscribedAt := Some (now env);
                         p_unsubscribeToken :=
                           Some (generateUnsubscribeToken (UNSUBSCRIBE_SECRET env) e);
                         p_unsubscribedAt := None |}
    /\ docs w' !! i = Some d'
    /\ (active d' = true /\ subscribed d' = Some true /\ subscribedAt d' = now env
        /\ unsubscribeToken d' = generateUnsubscribeToken (UNSUBSCRIBE_SECRET env) e)
    /\ (email d' = email d /\ source d' = source d /\ unsubscribedAt d' = unsubscribedAt d)
    /\ (forall j, j <> i -> docs w' !! j = docs w !! j)
    /\ List.length (docs w') = List.length (docs w)
    /\ (forall u, unsubscribedAt d = Some u -> u < now env ->
        active d' = true /\ unsubscribedAt d' = Some u /\ u < subscribedAt d').
Proof.
  intros [Hr Hw] Hfirst Ha.
  destruct (addSubscriber_inactive env w e src i d
              (found_first_record env e w i d Hr Hfirst) Ha Hw) as (w' & Hrun & Hdocs & Hcalls).
  destruct Hfirst as (Hi & _).
  eexists _, w', _. split; [exact Hrun|]. split; [reflexivity|].
  split; [rewrite Hcalls; apply last_app_two|].
  split; [rewrite Hdocs; apply list_lookup_insert_eq; now apply lookup_lt_Some with d|].
  split; [repeat split|]. split; [repeat split|].
  split; [intros j Hj; rewrite Hdocs; now apply list_lookup_insert_ne|].
  split; [rewrite Hdocs; apply length_insert|].
  intros u Hu Hlt. simpl. auto.
Qed.

Lemma reactivation_keeps_unsubscribedAt_and_source_witness :
  reliable (quiet 30) /\ first_record "a@x.com" [lapsed] 0 lapsed /\ active lapsed = false /\
  exists r w' d',
    addSubscriber "a@x.com" "website" (quiet 30) {| docs := [lapsed]; calls := [] |}
    = Returned r w'
    /\ docs w' !! 0%nat = Some d'
    /\ active d' = true /\ source d' = Some "website"
    /\ unsubscribedAt d' = Some 20 /\ subscribedAt d' = 30.
Proof.
  split; [split; reflexivity|]. split; [apply (first_record_head lapsed [])|].
  split; [reflexivity|].
  destruct (reactivation_keeps_unsubscribedAt_and_source
              (quiet 30) {| docs := [lapsed]; calls := [] |} "a@x.com" "website" 0%nat lapsed
              (conj eq_refl eq_refl) (first_record_head lapsed []) eq_refl)
    as (r & w' & d' & Hrun & _ & _ & Hi & (Ha & _ & Ht & _) & (_ & Hs & Hu) & _).
  exists r, w', d'. repeat split; assumption.
Defined.

(* ===================================================================== *)
(** ** The token generators *)
(* ===================================================================== *)

Lemma string_app_inv_head (e a b : string) : e ++ a = e ++ b -> a = b.
Proof.
  induction e as [|c e IH]; simpl; [auto|]. intros H. injection H as H. auto.
Qed.

(** C7, amended.  Each generator is a function of the address and of the
    value of [UNSUBSCRIBE_SECRET] alone, the hexadecimal SHA-256 digest
    of the address followed by a secret; but the two do not take the
    same secret.  The web library hashes the address followed by
    [UNSUBSCRIBE_SECRET] when that is set and non-empty, and followed by
    ['development-secret-key'] otherwise.  The script hashes the address
    followed by [UNSUBSCRIBE_SECRET] as it is: by nothing when it is
    empty, by ['undefined'] when it is unset.  Reading the same
    [UNSUBSCRIBE_SECRET], the two hash the same message exactly when it
    is set and non-empty, and then return the same token. *)
Theorem token_is_sha256_of_email_and_secret (secret : option string) (e : string) :
  generateUnsubscribeToken secret e
  = SHA256.sha256_hex
      (e ++ match secret with
            | Some (String c s) => String c s
            | _ => "development-secret-key"
            end)
  /\ Script.generateUnsubscribeToken secret e
     = SHA256.sha256_hex
         (e ++ match secret with
               | Some s => s
               | None => "undefined"
               end)
  /\ (e ++ match secret with
           | Some (String c s) => String c s
           | _ => "development-secret-key"
           end
      = e ++ match secret with
             | Some s => s
             | None => "undefined"
             end
      <-> exists s, secret = Some s /\ s <> "")
  /\ ((exists s, secret = Some s /\ s <> "") ->
      generateUnsubscribeToken secret e = Script.generateUnsubscribeToken secret e).
Proof.
  unfold generateUnsubscribeToken, Script.generateUnsubscribeToken,
    JS.or_default, JS.ToString, JS.truthy.
  destruct secret as [[|c s]|]; (split; [reflexivity|]); (split; [reflexivity|]); split.
  - split; [intros H; apply string_app_inv_head in H; discriminate H|].
    intros (s & Hs & Hne). injection Hs as <-. now contradict Hne.
  - intros (s & Hs & Hne). injection Hs as <-. now contradict Hne.
  - split; [intros _; exists (String c s); split; [reflexivity|discriminate]|reflexivity].
  - reflexivity.
  - split; [intros H; apply string_app_inv_head in H; discriminate H|].
    intros (s & Hs & _). discriminate Hs.
  - intros (s & Hs & _). discriminate Hs.
Qed.

Lemma token_is_sha256_of_email_and_secret_witness :
  (exists s, Some "s3cret" = Some s /\ s <> "")
  /\ generateUnsubscribeToken (Some "s3cret") "a@x.com"
     = SHA256.sha256_hex ("a@x.com" ++ "s3cret")
  /\ Script.generateUnsubscribeToken (Some "s3cret") "a@x.com"
     = SHA256.sha256_hex ("a@x.com" ++ "s3cret")
  /\ generateUnsubscribeToken (Some "s3cret") "a@x.com"
     = Script.generateUnsubscribeToken (Some "s3cret") "a@x.com".
Proof.
  assert (H : exists s, Some "s3cret" = Some s /\ s <> "")
    by (exists "s3cret"; split; [reflexivity|discriminate]).
  destruct (token_is_sha256_of_email_and_secret (Some "s3cret") "a@x.com")
    as (Hweb & Hscript & _ & Hsame).
  split; [exact H|]. split; [exact Hweb|]. split; [exact Hscript|]. exact (Hsame H).
Defined.

(** With [UNSUBSCRIBE_SECRET] set to a non-empty value, the two
    generators see the same secret. *)
Lemma generators_agree_when_configured (s e : string) :
  s <> "" ->
  generateUnsubscribeToken (Some s) e = Script.generateUnsubscribeToken (Some s) e.
Proof.
  intros Hs. unfold generateUnsubscribeToken, Script.generateUnsubscribeToken. simpl.
  destruct s; [now contradict Hs|reflexivity].
Qed.

(** C7, as stated, is refuted.  With [UNSUBSCRIBE_SECRET] unset the
    library falls back to its development secret while the script
    concatenates [undefined]; with [UNSUBSCRIBE_SECRET] empty the library
    falls back again while the script appends nothing.  The tokens of
    a\@x.com differ in both cases, and the route rejects the token the
    script computes. *)
Lemma generators_differ_when_unset :
  generateUnsubscribeToken None "a@x.com" = token_a
  /\ Script.generateUnsubscribeToken None "a@x.com"
     = "85e34e6b38fa3c3cd7a96088723806e3159569317f46074964ae2910bbc93222"
  /\ generateUnsubscribeToken None "a@x.com" <> Script.generateUnsubscribeToken None "a@x.com"
  /\ generateUnsubscribeToken (Some "") "a@x.com"
     <> Script.generateUnsubscribeToken (Some "") "a@x.com"
  /\ UnsubscribeRoute.GET (Some (Script.generateUnsubscribeToken None "a@x.com"))
       (Some "a@x.com") (quiet 30) {| docs := [member]; calls := [] |}
     = Returned {| body := JObject [("error", JString "Invalid unsubscribe token")];
                   status := 400 |}
                {| docs := [member]; calls := [] |}.
Proof.
  split; [vm_compute; reflexivity|]. split; [vm_compute; reflexivity|].
  split; [intros H; vm_compute in H; discriminate H|].
  split; [intros H; vm_compute in H; discriminate H|].
  vm_compute; reflexivity.
Qed.

(* ===================================================================== *)
(** ** Every answer of the service *)
(* ===================================================================== *)

Lemma addSubscriber_results (env : Env) (w : World) (e src : string) :
  exists r w',
    addSubscriber e src env w = Returned r w'
    /\ (success r = true \/ r = AlreadySubscribed \/ r = FailedToSubscribe).
Proof.
  unfold addSubscriber. to_lookup.
  destruct (found env e w) as [[i d]|].
  - destruct (active d); [eexists _, _; split; [reflexivity|auto]|].
    unfold Timestamp_now, updateDoc, ret. rewrite token_here_eq. simpl.
    destruct (write_fails env); [eexists _, _; split; [reflexivity|auto]|].
    destruct (docs w !! i); eexists _, _; (split; [reflexivity|auto]).
  - unfold Timestamp_now, addDoc, ret. rewrite token_here_eq. simpl.
    destruct (write_fails env); eexists _, _; (split; [reflexivity|auto]).
Qed.

Lemma unsubscribeByEmail_results (env : Env) (w : World) (e : string) :
  exists r w',
    unsubscribeByEmail e env w = Returned r w'
    /\ (success r = true \/ r = NotFound \/ r = AlreadyInactive \/ r = FailedToUnsubscribe).
Proof.
  unfold unsubscribeByEmail. to_lookup.
  destruct (found env e w) as [[i d]|]; [|eexists _, _; split; [reflexivity|auto]].
  destruct (active d); simpl; [|eexists _, _; split; [reflexivity|auto]].
  unfold Timestamp_now, updateDoc, ret. simpl.
  destruct (write_fails env); [eexists _, _; split; [reflexivity|auto]|].
  destruct (docs w !! i); eexists _, _; (split; [reflexivity|auto]).
Qed.

Lemma unsubscribeByToken_results (env : Env) (w : World) (e t : string) :
  exists r w',
    unsubscribeByToken e t env w = Returned r w'
    /\ (success r = true \/ r = InvalidToken \/ r = NotFound \/ r = FailedToUnsubscribe).
Proof.
  destruct (String.eqb_spec t (generateUnsubscribeToken (UNSUBSCRIBE_SECRET env) e))
    as [->|Hne].
  - rewrite unsubscribeByToken_right. cbv zeta.
    destruct (found env e w) as [[i d]|]; [|eexists _, _; split; [reflexivity|auto]].
    destruct (active d); simpl; [|eexists _, _; split; [reflexivity|auto]].
    destruct (updateDoc _ _ _ _); eexists _, _; (split; [reflexivity|auto]).
  - rewrite (unsubscribeByToken_wrong env w e t Hne).
    eexists _, _; split; [reflexivity|auto].
Qed.

Lemma getActiveSubscribers_eq (env : Env) (w : World) :
  getActiveSubscribers env w
  = Returned (if read_fails env then [] else List.map snd (query_from 0 WhereActive (docs w)))
             (log (CGetDocs WhereActive) w).
Proof.
  unfold getActiveSubscribers, try_catch, bind, getDocs, ret.
  destruct (read_fails env); reflexivity.
Qed.

(* ===================================================================== *)
(** ** [GET /api/unsubscribe] *)
(* ===================================================================== *)

Lemma GET_unsubscribe_missing (env : Env) (w : World) (token email : option string) :
  falsy token || falsy email = true ->
  UnsubscribeRoute.GET token email env w
  = Returned (NextResponse_json
                (JObject [("error", JString "Missing token or email parameter")]) 400) w.
Proof.
  intros H. unfold UnsubscribeRoute.GET, try_catch. rewrite H. reflexivity.
Qed.

(** The status of the token route as a function of the answer of the
    service. *)
Lemma GET_unsubscribe_present (env : Env) (w : World) (tok em : string) :
  JS.truthy tok = true -> JS.truthy em = true ->
  exists r w' resp,
    unsubscribeByToken em tok env w = Returned r w'
    /\ UnsubscribeRoute.GET (Some tok) (Some em) env w = Returned resp w'
    /\ (success r = true ->
        resp = NextResponse_json (JObject [("message", JString (message r))]) 200)
    /\ (r = InvalidToken ->
        resp = NextResponse_json (JObject [("error", JString "Invalid unsubscribe token")]) 400)
    /\ (r = NotFound ->
        resp = NextResponse_json
                 (JObject [("error", JString "Email address not found in our subscriber list")])
                 404)
    /\ (r = FailedToUnsubscribe ->
        resp = NextResponse_json
                 (JObject [("error", JString "Failed to unsubscribe. Please try again.")]) 400).
Proof.
  intros Htok Hem.
  destruct (unsubscribeByToken_results env w em tok) as (r & w' & Hrun & Hr).
  unfold UnsubscribeRoute.GET, try_catch, bind, falsy, string_of. simpl.
  rewrite Htok, Hem. simpl. rewrite Hrun.
  destruct Hr as [Hs | [-> | [-> | ->]]].
  - rewrite Hs. eexists _, _, _. split; [reflexivity|]. split; [reflexivity|].
    split; [reflexivity|].
    repeat split; intros ->; discriminate Hs.
  - eexists _, _, _. split; [reflexivity|]. split; [reflexivity|].
    repeat split; try reflexivity; intros H; discriminate H.
  - eexists _, _, _. split; [reflexivity|]. split; [reflexivity|].
    repeat split; try reflexivity; intros H; discriminate H.
  - eexists _, _, _. split; [reflexivity|]. split; [reflexivity|].
    repeat split; try reflexivity; intros H; discriminate H.
Qed.

(** The route never answers 403. *)
Lemma GET_unsubscribe_never_403 (env : Env) (w : World) (token email : option string) resp w' :
  UnsubscribeRoute.GET token email env w = Returned resp w' -> status resp <> 403.
Proof.
  destruct (falsy token || falsy email) eqn:Hmiss.
  - rewrite (GET_unsubscribe_missing env w token email Hmiss).
    intros [= <- _]. discriminate.
  - apply orb_false_elim in Hmiss as [Ht He].
    destruct token as [tok|]; [|discriminate Ht]. destruct email as [em|]; [|discriminate He].
    simpl in Ht, He. apply negb_false_iff in Ht, He.
    destruct (GET_unsubscribe_present env w tok em Ht He)
      as (r & w1 & resp1 & Hrun & -> & Hok & Hinv & Hnf & Hfail).
    intros [= <- _].
    destruct (unsubscribeByToken_results env w em tok) as (r' & w2 & Hrun' & Hr).
    rewrite Hrun in Hrun'. injection Hrun' as <- <-.
    destruct Hr as [Hs | [Hr | [Hr | Hr]]].
    + rewrite (Hok Hs). discriminate.
    + rewrite (Hinv Hr). discriminate.
    + rewrite (Hnf Hr). discriminate.
    + rewrite (Hfail Hr). discriminate.
Qed.

(** C5, evaluated where code and claim part: a request carrying both
    parameters and a token that is not the recomputed one is answered
    with status 400 (the claim says 403).  The service reports ['Invalid
    unsubscribe token'] and the route looks for ['Invalid token'] in that
    message. *)
Theorem GET_unsubscribe_invalid_token_status :
  unsubscribeByToken "a@x.com" "wrong" (quiet 30) {| docs := [member]; calls := [] |}
  = Returned InvalidToken {| docs := [member]; calls := [] |}
  /\ UnsubscribeRoute.GET (Some "wrong") (Some "a@x.com") (quiet 30)
       {| docs := [member]; calls := [] |}
     = Returned {| body := JObject [("error", JString "Invalid unsubscribe token")];
                   status := 400 |}
                {| docs := [member]; calls := [] |}.
Proof. split; vm_compute; reflexivity. Qed.

(* ===================================================================== *)
(** ** Store failures at the HTTP boundary *)
(* ===================================================================== *)







Lemma emailRegex_truthy (e : string) : JS.emailRegex_test e = true -> JS.truthy e = true.
Proof. destruct e; [discriminate|reflexivity]. Qed.










(* ===================================================================== *)
(** ** Time stamps along a history *)
(* ===================================================================== *)

Lemma addSubscriber_effect (env : Env) (w : World) (e src : string) :
  effect env (docs w) (docs (final_world (addSubscriber e src env w))).
Proof.
  unfold addSubscriber. to_lookup.
  destruct (found env e w) as [[i d]|] eqn:Hf.
  - apply found_Some in Hf as (_ & Hi & _).
    destruct (active d) eqn:Ha; [apply effect_none|].
    unfold Timestamp_now, updateDoc, ret. rewrite token_here_eq. simpl.
    destruct (write_fails env); [apply effect_none|].
    rewrite Hi. simpl. now apply effect_reactivate.
  - unfold Timestamp_now, addDoc, ret. rewrite token_here_eq. simpl.
    destruct (write_fails env); [apply effect_none|]. apply effect_insert.
Qed.

Lemma updateDoc_deactivate_effect (env : Env) (w0 w : World) i d r1 r2 :
  docs w = docs w0 -> docs w0 !! i = Some d -> active d = true ->
  effect env (docs w0)
    (docs (final_world
             match updateDoc i (deactivate (now env)) env w with
             | Returned _ w2 => Returned (A := ServiceResult) r1 w2
             | Thrown w2 => Returned r2 w2
             end)).
Proof.
  intros Hw Hi Ha. unfold updateDoc. rewrite Hw.
  destruct (write_fails env); [simpl; rewrite Hw; apply effect_none|].
  rewrite Hi. simpl. now apply effect_deactivate.
Qed.

Lemma unsubscribeByEmail_effect (env : Env) (w : World) (e : string) :
  effect env (docs w) (docs (final_world (unsubscribeByEmail e env w))).
Proof.
  unfold unsubscribeByEmail. to_lookup.
  destruct (found env e w) as [[i d]|] eqn:Hf; [|apply effect_none].
  apply found_Some in Hf as (_ & Hi & _).
  destruct (active d) eqn:Ha; simpl; [|apply effect_none].
  unfold Timestamp_now, updateDoc, ret. simpl.
  destruct (write_fails env); [apply effect_none|].
  rewrite Hi. simpl. now apply effect_deactivate.
Qed.

Lemma unsubscribeByToken_effect (env : Env) (w : World) (e t : string) :
  effect env (docs w) (docs (final_world (unsubscribeByToken e t env w))).
Proof.
  destruct (String.eqb_spec t (generateUnsubscribeToken (UNSUBSCRIBE_SECRET env) e))
    as [->|Hne].
  - rewrite unsubscribeByToken_right. cbv zeta.
    destruct (found env e w) as [[i d]|] eqn:Hf; [|apply effect_none].
    apply found_Some in Hf as (_ & Hi & _).
    destruct (active d) eqn:Ha; simpl; [|apply effect_none].
    now apply updateDoc_deactivate_effect with d.
  - rewrite (unsubscribeByToken_wrong env w e t Hne). apply effect_none.
Qed.

Lemma run_op_effect (op : Op) (env : Env) (w : World) :
  effect env (docs w) (docs (final_world (run_op op env w))).
Proof.
  destruct op; simpl.
  - apply addSubscriber_effect.
  - apply unsubscribeByEmail_effect.
  - apply unsubscribeByToken_effect.
Qed.

Lemma became_active_kept (before after : list Subscriber) (i : nat) (d : Subscriber) :
  before !! i = Some d -> after !! i = Some d -> became_active before after i = false.
Proof.
  intros Hb Ha. unfold became_active. rewrite Ha, Hb. now destruct (active d).
Qed.

(** A document the operation did not touch stays well stamped. *)
Lemma stamps_of_kept_doc (s : Traced) (t : Timestamp) (after : list Subscriber) i d :
  well_stamped s -> clock s <= t ->
  docs (world s) !! i = Some d -> after !! i = Some d ->
  subscribedAt d <= t
  /\ (active d = true ->
      (if became_active (docs (world s)) after i then Some t else activatedAt s i)
      = Some (subscribedAt d))
  /\ (active d = false -> exists u, unsubscribedAt d = Some u /\ subscribedAt d <= u).
Proof.
  intros Hinv Hclock Hb Ha. destruct (Hinv i d Hb) as (H1 & H2 & H3).
  rewrite (became_active_kept _ _ i d Hb Ha). split; [lia|]. split; assumption.
Qed.

Lemma well_stamped_step (s : Traced) (op : Op) (env : Env) :
  well_stamped s -> clock s <= now env -> well_stamped (step op env s).
Proof.
  intros Hinv Hclock. unfold well_stamped, step. simpl.
  pose proof (run_op_effect op env (world s)) as Heff.
  destruct Heff as [|e src|j d0 tok Hj Ha0|j d0 Hj Ha0]; intros i d Hi.
  - now apply stamps_of_kept_doc.
  - destruct (Nat.lt_ge_cases i (List.length (docs (world s)))) as [Hlt|Hge].
    + apply stamps_of_kept_doc; auto.
      rewrite lookup_app_l in Hi by exact Hlt. exact Hi.
    + pose proof Hi as Hi'. rewrite lookup_app_r in Hi' by exact Hge.
      destruct (i - List.length (docs (world s)))%nat; [|destruct n; discriminate Hi'].
      injection Hi' as <-.
      unfold became_active. rewrite Hi. simpl.
      rewrite (proj2 (lookup_ge_None _ _) Hge). simpl.
      split; [lia|]. split; [reflexivity|discriminate].
  - destruct (decide (i = j)) as [->|Hne].
    + pose proof Hi as Hi'.
      rewrite list_lookup_insert_eq in Hi' by now apply lookup_lt_Some with d0.
      injection Hi' as <-.
      unfold became_active. rewrite Hi, Hj, Ha0. simpl.
      split; [lia|]. split; [reflexivity|discriminate].
    + apply stamps_of_kept_doc; auto.
      rewrite list_lookup_insert_ne in Hi by auto. exact Hi.
  - destruct (decide (i = j)) as [->|Hne].
    + pose proof Hi as Hi'.
      rewrite list_lookup_insert_eq in Hi' by now apply lookup_lt_Some with d0.
      injection Hi' as <-.
      destruct (Hinv j d0 Hj) as (H1 & _ & _). simpl.
      split; [lia|]. split; [discriminate|].
      intros _. exists (now env). split; [reflexivity|lia].
    + apply stamps_of_kept_doc; auto.
      rewrite list_lookup_insert_ne in Hi by auto. exact Hi.
Qed.

Lemma reachable_well_stamped (s : Traced) : reachable s -> well_stamped s.
Proof.
  induction 1 as [t0|s op env _ IH Hclock].
  - intros i d Hi. discriminate Hi.
  - now apply well_stamped_step.
Qed.

(** C8. In every state the three operations can reach from the empty
    collection, with a clock that does not run backwards: an active
    record carries the [subscribedAt] that was set when it last became
    active, and an inactive record carries an [unsubscribedAt] at or after
    its [subscribedAt]. *)
Theorem reachable_records_well_stamped (s : Traced) (i : nat) (d : Subscriber) :
  reachable s ->
  docs (world s) !! i = Some d ->
  (active d = true -> activatedAt s i = Some (subscribedAt d))
  /\ (active d = false ->
      exists u, unsubscribedAt d = Some u /\ subscribedAt d <= u).
Proof.
  intros Hreach Hi. destruct (reachable_well_stamped s Hreach i d Hi) as (_ & H2 & H3).
  split; assumption.
Qed.

Lemma subscribed_then_left_reachable : reachable subscribed_then_left.
Proof.
  unfold subscribed_then_left.
  apply reachable_step; [apply reachable_step; [apply reachable_empty|]|]; simpl; lia.
Qed.

Lemma reachable_records_well_stamped_witness :
  reachable subscribed_then_left
  /\ docs (world subscribed_then_left) !! 0%nat
     = Some (deactivated 20 (fresh_subscriber (quiet 10) "a@x.com" "website"))
  /\ exists u,
      unsubscribedAt (deactivated 20 (fresh_subscriber (quiet 10) "a@x.com" "website")) = Some u
      /\ subscribedAt (deactivated 20 (fresh_subscriber (quiet 10) "a@x.com" "website")) <= u.
Proof.
  assert (Hdoc : docs (world subscribed_then_left) !! 0%nat
                 = Some (deactivated 20 (fresh_subscriber (quiet 10) "a@x.com" "website")))
    by (vm_compute; reflexivity).
  split; [exact subscribed_then_left_reachable|]. split; [exact Hdoc|].
  exact (proj2 (reachable_records_well_stamped subscribed_then_left 0%nat _
                  subscribed_then_left_reachable Hdoc) eq_refl).
Defined.

(* ===================================================================== *)
(** ** How the operations compose *)
(* ===================================================================== *)

Lemma first_record_app_new (e : string) (l : list Subscriber) (d : Subscriber) :
  no_record e l -> email d = e -> first_record e (l ++ [d]) (List.length l) d.
Proof.
  intros Hno He. split; [|split; [exact He|]].
  - rewrite lookup_app_r by lia. now rewrite Nat.sub_diag.
  - intros j d' Hj Hd'. rewrite lookup_app_l in Hd' by exact Hj.
    apply Hno. now apply list_elem_of_lookup_2 with j.
Qed.

Lemma first_record_insert (e : string) (l : list Subscriber) i d d' :
  first_record e l i d -> email d' = email d -> first_record e (<[i := d']> l) i d'.
Proof.
  intros (Hi & He & Hfirst) He'. split; [|split; [congruence|]].
  - apply list_lookup_insert_eq. now apply lookup_lt_Some with d.
  - intros j d2 Hj Hd2. rewrite list_lookup_insert_ne in Hd2 by lia. eauto.
Qed.

Lemma first_record_unique (e : string) (l : list Subscriber) i d j d' :
  first_record e l i d -> first_record e l j d' -> i = j /\ d = d'.
Proof.
  intros (Hi & He & Hfi) (Hj & He' & Hfj).
  assert (i = j) as ->.
  { destruct (Nat.lt_trichotomy i j) as [Hlt|[Heq|Hgt]]; [|exact Heq|].
    - now destruct (Hfj i d Hlt Hi).
    - now destruct (Hfi j d' Hgt Hj). }
  split; [reflexivity|congruence].
Qed.

(** After a successful subscription, the record of the address is the
    one the call reported. *)
Lemma found_after_subscribe (env env' : Env) (w w1 : World) (e src : string) r :
  reliable env -> read_fails env' = false ->
  addSubscriber e src env w = Returned r w1 -> success r = true ->
  exists i d,
    found env' e w1 = Some (i, d) /\ subscriber r = Some (i, d)
    /\ email d = e /\ active d = true /\ subscribedAt d = now env
    /\ unsubscribeToken d = generateUnsubscribeToken (UNSUBSCRIBE_SECRET env) e.
Proof.
  intros [Hr Hw] Hr' Hrun Hs.
  destruct (found env e w) as [[i d]|] eqn:Hf.
  - pose proof (found_Some env e w i d Hf) as (_ & Hfirst).
    destruct (active d) eqn:Ha.
    + destruct (addSubscriber_active env w e src i d Hf Ha) as (w' & Hrun' & _).
      rewrite Hrun in Hrun'. injection Hrun' as -> _. discriminate Hs.
    + destruct (addSubscriber_inactive env w e src i d Hf Ha Hw) as (w' & Hrun' & Hdocs & _).
      rewrite Hrun in Hrun'. injection Hrun' as -> ->.
      eexists i, _. split; [|repeat split].
      * apply found_first_record; [exact Hr'|]. rewrite Hdocs.
        apply first_record_insert with d; [exact Hfirst|reflexivity].
      * simpl. now destruct Hfirst as (_ & He & _).
  - destruct (found_None env e w Hf) as [Hbad|Hno]; [congruence|].
    destruct (addSubscriber_absent env w e src Hf Hw) as (w' & Hrun' & Hdocs).
    rewrite Hrun in Hrun'. injection Hrun' as -> ->.
    eexists _, _. split; [|repeat split].
    apply found_first_record; [exact Hr'|]. rewrite Hdocs.
    now apply first_record_app_new.
Qed.

(** X1. Insert, then look up: after a successful [addSubscriber], a
    lookup by the same address returns the very document the call
    reported, active, stamped with the time of the call and carrying the
    recomputed token. *)
Theorem subscribe_then_lookup (env env' : Env) (w w1 : World) (e src : string) r :
  reliable env -> read_fails env' = false ->
  addSubscriber e src env w = Returned r w1 -> success r = true ->
  exists i d,
    getSubscriberByEmail e env' w1
    = Returned (Some (i, d)) (log (CGetDocs (WhereEmail e)) w1)
    /\ subscriber r = Some (i, d)
    /\ email d = e /\ active d = true /\ subscribedAt d = now env
    /\ unsubscribeToken d = generateUnsubscribeToken (UNSUBSCRIBE_SECRET env) e.
Proof.
  intros Hrel Hr' Hrun Hs.
  destruct (found_after_subscribe env env' w w1 e src r Hrel Hr' Hrun Hs)
    as (i & d & Hf & Hrest).
  exists i, d. rewrite getSubscriberByEmail_eq, Hf. split; [reflexivity|exact Hrest].
Qed.

Lemma subscribe_then_lookup_witness :
  reliable (quiet 30) /\ read_fails (quiet 40) = false /\
  exists r w1 i d,
    addSubscriber "a@x.com" "website" (quiet 30) {| docs := [lapsed]; calls := [] |}
    = Returned r w1
    /\ success r = true
    /\ getSubscriberByEmail "a@x.com" (quiet 40) w1
       = Returned (Some (i, d)) (log (CGetDocs (WhereEmail "a@x.com")) w1)
    /\ active d = true /\ subscribedAt d = 30.
Proof.
  split; [split; reflexivity|]. split; [reflexivity|].
  destruct (addSubscriber_results (quiet 30) {| docs := [lapsed]; calls := [] |}
              "a@x.com" "website") as (r & w1 & Hrun & _).
  assert (Hs : success r = true).
  { assert (Hv : succeeded (addSubscriber "a@x.com" "website" (quiet 30)
                              {| docs := [lapsed]; calls := [] |}) = true)
      by (vm_compute; reflexivity).
    now rewrite Hrun in Hv. }
  destruct (subscribe_then_lookup (quiet 30) (quiet 40) _ w1 "a@x.com" "website" r
              (conj eq_refl eq_refl) eq_refl Hrun Hs)
    as (i & d & Hlook & _ & _ & Ha & Ht & _).
  exists r, w1, i, d. repeat split; assumption.
Defined.

(** X2. Subscribing again right after a successful subscription is
    answered with [AlreadySubscribed] and changes nothing. *)
Theorem subscribe_twice (env env' : Env) (w w1 : World) (e src src' : string) r :
  reliable env -> read_fails env' = false ->
  addSubscriber e src env w = Returned r w1 -> success r = true ->
  exists w2,
    addSubscriber e src' env' w1 = Returned AlreadySubscribed w2 /\ docs w2 = docs w1.
Proof.
  intros Hrel Hr' Hrun Hs.
  destruct (found_after_subscribe env env' w w1 e src r Hrel Hr' Hrun Hs)
    as (i & d & Hf & _ & _ & Ha & _).
  now apply addSubscriber_active with i d.
Qed.

Lemma subscribe_twice_witness :
  reliable (quiet 30) /\ read_fails (quiet 40) = false /\
  exists r w1 w2,
    addSubscriber "a@x.com" "website" (quiet 30) empty_world = Returned r w1
    /\ success r = true
    /\ addSubscriber "a@x.com" "website" (quiet 40) w1 = Returned AlreadySubscribed w2
    /\ docs w2 = docs w1.
Proof.
  split; [split; reflexivity|]. split; [reflexivity|].
  destruct (addSubscriber_results (quiet 30) empty_world "a@x.com" "website")
    as (r & w1 & Hrun & _).
  assert (Hs : success r = true).
  { assert (Hv : succeeded (addSubscriber "a@x.com" "website" (quiet 30) empty_world) = true)
      by (vm_compute; reflexivity).
    now rewrite Hrun in Hv. }
  destruct (subscribe_twice (quiet 30) (quiet 40) empty_world w1 "a@x.com" "website" "website"
              r (conj eq_refl eq_refl) eq_refl Hrun Hs) as (w2 & Hrun2 & Hdocs).
  exists r, w1, w2. repeat split; assumption.
Defined.

(** X3. Unsubscribing and subscribing again reactivates the same
    document: the second call reports the id of the original record, the
    collection keeps its length, and the document carries both stamps. *)
Theorem unsubscribe_then_resubscribe
    (env1 env2 : Env) (w : World) (e src : string) (i : nat) (d : Subscriber) :
  reliable env1 -> reliable env2 ->
  first_record e (docs w) i d -> active d = true ->
  exists r1 w1 r2 w2 d2,
    unsubscribeByEmail e env1 w = Returned r1 w1 /\ success r1 = true
    /\ addSubscriber e src env2 w1 = Returned r2 w2 /\ success r2 = true
    /\ subscriber r2 = Some (i, d2)
    /\ d2 = reactivated (now env2) (generateUnsubscribeToken (UNSUBSCRIBE_SECRET env2) e)
              (deactivated (now env1) d)
    /\ docs w2 = <[i := d2]> (docs w)
    /\ List.length (docs w2) = List.length (docs w).
Proof.
  intros [Hr1 Hw1] [Hr2 Hw2] Hfirst Ha.
  destruct (unsubscribeByEmail_active env1 w e i d
              (found_first_record env1 e w i d Hr1 Hfirst) Ha Hw1) as (w1 & Hrun1 & Hdocs1).
  assert (Hfirst1 : first_record e (docs w1) i (deactivated (now env1) d)).
  { rewrite Hdocs1. apply first_record_insert with d; [exact Hfirst|reflexivity]. }
  destruct (addSubscriber_inactive env2 w1 e src i _
              (found_first_record env2 e w1 i _ Hr2 Hfirst1) eq_refl Hw2)
    as (w2 & Hrun2 & Hdocs2 & _).
  eexists _, w1, _, w2, _. split; [exact Hrun1|]. split; [reflexivity|].
  split; [exact Hrun2|]. split; [reflexivity|]. split; [reflexivity|].
  split; [reflexivity|].
  rewrite Hdocs2, Hdocs1. rewrite list_insert_insert_eq. split; [reflexivity|].
  apply length_insert.
Qed.

Lemma unsubscribe_then_resubscribe_witness :
  reliable (quiet 30) /\ reliable (quiet 40)
  /\ first_record "a@x.com" [member] 0 member /\ active member = true
  /\ exists r1 w1 r2 w2,
      unsubscribeByEmail "a@x.com" (quiet 30) {| docs := [member]; calls := [] |}
      = Returned r1 w1
      /\ addSubscriber "a@x.com" "website" (quiet 40) w1 = Returned r2 w2
      /\ docs w2 = [reactivated 40 (generateUnsubscribeToken None "a@x.com")
                      (deactivated 30 member)].
Proof.
  split; [split; reflexivity|]. split; [split; reflexivity|].
  split; [apply (first_record_head member [])|]. split; [reflexivity|].
  destruct (unsubscribe_then_resubscribe (quiet 30) (quiet 40)
              {| docs := [member]; calls := [] |} "a@x.com" "website" 0%nat member
              (conj eq_refl eq_refl) (conj eq_refl eq_refl)
              (first_record_head member []) eq_refl)
    as (r1 & w1 & r2 & w2 & d2 & H1 & _ & H2 & _ & _ & -> & Hdocs & _).
  exists r1, w1, r2, w2. repeat split; assumption.
Defined.

(** X4. The token link can be used again: with the record of the address
    in any state, a first call with the recomputed token succeeds and
    leaves the record inactive, and a second call succeeds as well and
    changes nothing. *)
Theorem unsubscribeByToken_twice
    (env1 env2 : Env) (w : World) (e : string) (i : nat) (d : Subscriber) :
  reliable env1 -> read_fails env2 = false ->
  first_record e (docs w) i d ->
  exists r1 w1 r2 w2 d1,
    unsubscribeByToken e (generateUnsubscribeToken (UNSUBSCRIBE_SECRET env1) e) env1 w
    = Returned r1 w1
    /\ success r1 = true
    /\ docs w1 !! i = Some d1 /\ active d1 = false
    /\ unsubscribeByToken e (generateUnsubscribeToken (UNSUBSCRIBE_SECRET env2) e) env2 w1
       = Returned r2 w2
    /\ success r2 = true
    /\ docs w2 = docs w1.
Proof.
  intros [Hr1 Hw1] Hr2 Hfirst.
  assert (Hstep : exists r1 w1 d1,
             unsubscribeByToken e (generateUnsubscribeToken (UNSUBSCRIBE_SECRET env1) e) env1 w
             = Returned r1 w1
             /\ success r1 = true /\ first_record e (docs w1) i d1 /\ active d1 = false).
  { rewrite unsubscribeByToken_right. cbv zeta.
    rewrite (found_first_record env1 e w i d Hr1 Hfirst).
    destruct (active d) eqn:Ha; simpl.
    - unfold updateDoc. simpl. rewrite Hw1.
      destruct Hfirst as (Hi & He & Hf). rewrite Hi.
      eexists _, _, (deactivated (now env1) d).
      split; [reflexivity|]. split; [reflexivity|]. simpl.
      split; [|reflexivity].
      apply first_record_insert with d; [now repeat split|reflexivity].
    - eexists _, _, d. split; [reflexivity|]. split; [reflexivity|]. split; assumption. }
  destruct Hstep as (r1 & w1 & d1 & Hrun1 & Hs1 & Hfirst1 & Ha1).
  assert (Hrun2 :
            unsubscribeByToken e (generateUnsubscribeToken (UNSUBSCRIBE_SECRET env2) e) env2 w1
            = Returned (result true "This email is already unsubscribed")
                       (log (CGetDocs (WhereEmail e)) w1)).
  { rewrite unsubscribeByToken_right. cbv zeta.
    now rewrite (found_first_record env2 e w1 i d1 Hr2 Hfirst1), Ha1. }
  eexists r1, w1, _, _, d1. split; [exact Hrun1|]. split; [exact Hs1|].
  split; [apply Hfirst1|]. split; [exact Ha1|].
  split; [exact Hrun2|]. split; reflexivity.
Qed.

Lemma unsubscribeByToken_twice_witness :
  reliable (quiet 30) /\ read_fails (quiet 40) = false
  /\ first_record "a@x.com" [member] 0 member
  /\ exists r1 w1 r2 w2,
      unsubscribeByToken "a@x.com" (generateUnsubscribeToken None "a@x.com") (quiet 30)
        {| docs := [member]; calls := [] |} = Returned r1 w1
      /\ success r1 = true
      /\ unsubscribeByToken "a@x.com" (generateUnsubscribeToken None "a@x.com") (quiet 40) w1
         = Returned r2 w2
      /\ success r2 = true /\ docs w2 = docs w1.
Proof.
  split; [split; reflexivity|]. split; [reflexivity|].
  split; [apply (first_record_head member [])|].
  destruct (unsubscribeByToken_twice (quiet 30) (quiet 40)
              {| docs := [member]; calls := [] |} "a@x.com" 0%nat member
              (conj eq_refl eq_refl) eq_refl (first_record_head member []))
    as (r1 & w1 & r2 & w2 & d1 & H1 & Hs1 & _ & _ & H2 & Hs2 & Hdocs).
  exists r1, w1, r2, w2. repeat split; assumption.
Defined.

(** X5. The two unsubscribe entry points differ in their answers only:
    whatever the collection holds and whatever Firestore rejects,
    [unsubscribeByToken] with the recomputed token leaves the collection
    exactly as [unsubscribeByEmail] does. *)
Theorem unsubscribe_paths_same_effect (env : Env) (w : World) (e : string) :
  docs (final_world
          (unsubscribeByToken e (generateUnsubscribeToken (UNSUBSCRIBE_SECRET env) e) env w))
  = docs (final_world (unsubscribeByEmail e env w)).
Proof.
  rewrite unsubscribeByToken_right. cbv zeta.
  unfold unsubscribeByEmail. to_lookup.
  destruct (found env e w) as [[i d]|]; [|reflexivity].
  destruct (active d); simpl; [|reflexivity].
  unfold Timestamp_now, updateDoc, ret. simpl.
  destruct (write_fails env); [reflexivity|].
  destruct (docs w !! i); reflexivity.
Qed.

(* ===================================================================== *)
(** ** What an operation can and cannot touch *)
(* ===================================================================== *)

Lemma addSubscriber_touches (env : Env) (w : World) (e src : string) :
  touches env e (docs w) (docs (final_world (addSubscriber e src env w))).
Proof.
  unfold addSubscriber. to_lookup.
  destruct (found env e w) as [[i d]|] eqn:Hf.
  - apply found_Some in Hf as (_ & Hfirst). pose proof Hfirst as (Hi & _).
    destruct (active d) eqn:Ha; [apply touch_nothing|].
    unfold Timestamp_now, updateDoc, ret. rewrite token_here_eq. simpl.
    destruct (write_fails env); [apply touch_nothing|].
    rewrite Hi. simpl. apply touch_rewrite with d; auto. simpl. now rewrite Ha.
  - unfold Timestamp_now, addDoc, ret. rewrite token_here_eq. simpl.
    destruct (write_fails env); [apply touch_nothing|].
    apply (touch_insert env e (docs w) src). intros Hr.
    destruct (found_None env e w Hf) as [Hbad|Hno]; [congruence|exact Hno].
Qed.

(** A successful [unsubscribeByEmail] has deactivated an active record. *)
Lemma unsubscribeByEmail_success (env : Env) (w w' : World) (e : string) r :
  unsubscribeByEmail e env w = Returned r w' -> success r = true ->
  exists i d, first_record e (docs w) i d /\ active d = true
              /\ docs w' = <[i := deactivated (now env) d]> (docs w).
Proof.
  unfold unsubscribeByEmail. to_lookup.
  destruct (found env e w) as [[i d]|] eqn:Hf; [|intros [= <- _]; discriminate].
  apply found_Some in Hf as (_ & Hfirst). pose proof Hfirst as (Hi & _).
  destruct (active d) eqn:Ha; simpl; [|intros [= <- _]; discriminate].
  unfold Timestamp_now, updateDoc, ret. simpl.
  destruct (write_fails env); [intros [= <- _]; discriminate|].
  rewrite Hi. intros [= <- <-] _. exists i, d. repeat split; auto; apply Hfirst.
Qed.

(** A successful [unsubscribeByToken] found the record inactive, or has
    deactivated it. *)
Lemma unsubscribeByToken_success (env : Env) (w w' : World) (e t : string) r :
  unsubscribeByToken e t env w = Returned r w' -> success r = true ->
  exists i d, first_record e (docs w) i d
              /\ ((active d = false /\ docs w' = docs w)
                  \/ (active d = true /\ docs w' = <[i := deactivated (now env) d]> (docs w))).
Proof.
  destruct (String.eqb_spec t (generateUnsubscribeToken (UNSUBSCRIBE_SECRET env) e))
    as [->|Hne].
  - rewrite unsubscribeByToken_right. cbv zeta.
    destruct (found env e w) as [[i d]|] eqn:Hf; [|intros [= <- _]; discriminate].
    apply found_Some in Hf as (_ & Hfirst). pose proof Hfirst as (Hi & _).
    destruct (active d) eqn:Ha; simpl.
    + unfold updateDoc. simpl.
      destruct (write_fails env); [intros [= <- _]; discriminate|].
      rewrite Hi. intros [= <- <-] _. exists i, d. split; [exact Hfirst|]. right. now split.
    + intros [= <- <-] _. exists i, d. split; [exact Hfirst|]. left. now split.
  - rewrite (unsubscribeByToken_wrong env w e t Hne). intros [= <- _]. discriminate.
Qed.

Lemma unsubscribe_touches (env : Env) (w : World) (e : string) o :
  (forall r w', o = Returned r w' -> success r = true ->
     exists i d, first_record e (docs w) i d
                 /\ ((active d = false /\ docs w' = docs w)
                     \/ (active d = true
                         /\ docs w' = <[i := deactivated (now env) d]> (docs w)))) ->
  (forall r w', o = Returned r w' -> success r = false -> docs w' = docs w) ->
  (exists r w', o = Returned r w') ->
  touches env e (docs w) (docs (final_world o)).
Proof.
  intros Hok Hfail (r & w' & ->). simpl.
  destruct (success r) eqn:Hs.
  - destruct (Hok r w' eq_refl Hs) as (i & d & Hfirst & [[_ ->]|[Ha ->]]).
    + apply touch_nothing.
    + apply touch_rewrite with d; auto. simpl. now rewrite Ha.
  - rewrite (Hfail r w' eq_refl Hs). apply touch_nothing.
Qed.

Lemma unsubscribeByToken_failure_frame (env : Env) (w : World) (e t : string) r w' :
  unsubscribeByToken e t env w = Returned r w' -> success r = false -> docs w' = docs w.
Proof.
  intros Hrun Hs.
  pose proof (unsubscribeByToken_effect env w e t) as Heff. rewrite Hrun in Heff. simpl in Heff.
  destruct (String.eqb_spec t (generateUnsubscribeToken (UNSUBSCRIBE_SECRET env) e))
    as [->|Hne].
  - rewrite unsubscribeByToken_right in Hrun. cbv zeta in Hrun.
    destruct (found env e w) as [[i d]|]; [|now injection Hrun as _ <-].
    destruct (active d); simpl in Hrun; [|now injection Hrun as _ <-].
    unfold updateDoc in Hrun. simpl in Hrun.
    destruct (write_fails env); [now injection Hrun as _ <-|].
    destruct (docs w !! i); injection Hrun as <- <-; [discriminate Hs|reflexivity].
  - rewrite (unsubscribeByToken_wrong env w e t Hne) in Hrun. now injection Hrun as _ <-.
Qed.

Lemma run_op_touches (op : Op) (env : Env) (w : World) :
  touches env (op_email op) (docs w) (docs (exec op env w)).
Proof.
  unfold exec. destruct op as [e src|e|e t]; simpl.
  - apply addSubscriber_touches.
  - apply unsubscribe_touches.
    + intros r w' Hrun Hs.
      destruct (unsubscribeByEmail_success env w w' e r Hrun Hs) as (i & d & H1 & H2 & H3).
      exists i, d. split; [exact H1|]. right. now split.
    + intros r w'. apply unsubscribeByEmail_failure_frame.
    + destruct (unsubscribeByEmail_results env w e) as (r & w' & Hrun & _). eauto.
  - apply unsubscribe_touches.
    + intros r w'. apply unsubscribeByToken_success.
    + intros r w'. apply unsubscribeByToken_failure_frame.
    + destruct (unsubscribeByToken_results env w e t) as (r & w' & Hrun & _). eauto.
Qed.

Lemma emails_after_rewrite (l : list Subscriber) i d d' :
  l !! i = Some d -> email d' = email d -> email <$> <[i := d']> l = email <$> l.
Proof.
  intros Hi He. rewrite list_fmap_insert, He. apply list_insert_id.
  now rewrite list_lookup_fmap, Hi.
Qed.

(** X6. At most one record per address is kept by every operation whose
    lookup Firestore answers: if no two documents share an address before
    [addSubscriber], [unsubscribeByEmail] or [unsubscribeByToken], none do
    afterwards, whether or not the write goes through. *)
Theorem one_record_per_email_kept (op : Op) (env : Env) (w : World) :
  read_fails env = false ->
  one_record_per_email (docs w) -> one_record_per_email (docs (exec op env w)).
Proof.
  intros Hr Hnodup. unfold one_record_per_email in *.
  destruct (run_op_touches op env w) as [|src Hno|i d d' Hfirst He _ _].
  - exact Hnodup.
  - rewrite fmap_app. apply NoDup_app. split; [exact Hnodup|]. split.
    + intros x Hx Hx'. apply list_elem_of_fmap in Hx as (d & -> & Hd).
      apply list_elem_of_singleton in Hx'. simpl in Hx'. now apply (Hno Hr d).
    + apply NoDup_singleton.
  - destruct Hfirst as (Hi & _). now rewrite (emails_after_rewrite _ i d d' Hi He).
Qed.

Lemma one_record_per_email_kept_witness :
  read_fails (quiet 30) = false /\ one_record_per_email [member]
  /\ one_record_per_email
       (docs (exec (OpAddSubscriber "b@x.com" "website") (quiet 30)
                {| docs := [member]; calls := [] |})).
Proof.
  assert (H : one_record_per_email [member]) by apply NoDup_singleton.
  split; [reflexivity|]. split; [exact H|].
  exact (one_record_per_email_kept (OpAddSubscriber "b@x.com" "website") (quiet 30)
           {| docs := [member]; calls := [] |} eq_refl H).
Defined.

(** X7. A lookup Firestore rejects is taken for "no such record": when
    the read of [addSubscriber] fails and its write goes through, the
    call reports success and appends a second document for an address
    that already has one. *)
Theorem duplicate_record_on_read_outage
    (env : Env) (w : World) (e src : string) (d : Subscriber) :
  read_fails env = true -> write_fails env = false ->
  d ∈ docs w -> email d = e ->
  exists r w',
    addSubscriber e src env w = Returned r w' /\ success r = true
    /\ docs w' = (docs w ++ [fresh_subscriber env e src])%list
    /\ ~ one_record_per_email (docs w').
Proof.
  intros Hr Hw Hd He.
  assert (Hf : found env e w = None) by (unfold found; now rewrite Hr).
  destruct (addSubscriber_absent env w e src Hf Hw) as (w' & Hrun & Hdocs).
  eexists _, w'. split; [exact Hrun|]. split; [reflexivity|]. split; [exact Hdocs|].
  unfold one_record_per_email. rewrite Hdocs, fmap_app. intros Hnodup.
  apply NoDup_app in Hnodup as (_ & Hdisj & _).
  apply (Hdisj e).
  - apply list_elem_of_fmap. exists d. now split.
  - apply list_elem_of_singleton. reflexivity.
Qed.

Lemma duplicate_record_on_read_outage_witness :
  read_fails (read_outage 30) = true /\ write_fails (read_outage 30) = false
  /\ member ∈ [member] /\ email member = "a@x.com"
  /\ exists r w',
      addSubscriber "a@x.com" "website" (read_outage 30) {| docs := [member]; calls := [] |}
      = Returned r w'
      /\ success r = true
      /\ docs w' = [member; fresh_subscriber (read_outage 30) "a@x.com" "website"].
Proof.
  split; [reflexivity|]. split; [reflexivity|].
  split; [apply list_elem_of_here|]. split; [reflexivity|].
  destruct (duplicate_record_on_read_outage (read_outage 30)
              {| docs := [member]; calls := [] |} "a@x.com" "website" member
              eq_refl eq_refl (list_elem_of_here _ _) eq_refl)
    as (r & w' & Hrun & Hs & Hdocs & _).
  exists r, w'. repeat split; assumption.
Defined.

(** X8. No operation removes or moves a document, or changes its [email]
    or [source]; and the documents of every other address come out
    exactly as they went in. *)
Theorem documents_stay_in_place (op : Op) (env : Env) (w : World) (i : nat) (d : Subscriber) :
  docs w !! i = Some d ->
  exists d',
    docs (exec op env w) !! i = Some d'
    /\ email d' = email d /\ source d' = source d
    /\ (email d <> op_email op -> d' = d).
Proof.
  intros Hi.
  destruct (run_op_touches op env w) as [|src Hno|j d0 d1 Hfirst He Hs _].
  - exists d. repeat split; auto.
  - exists d. rewrite lookup_app_l by now apply lookup_lt_Some with d. repeat split; auto.
  - destruct (decide (i = j)) as [->|Hne].
    + destruct Hfirst as (Hj & He0 & _).
      assert (d0 = d) as -> by congruence.
      exists d1. split; [apply list_lookup_insert_eq; now apply lookup_lt_Some with d|].
      split; [exact He|]. split; [exact Hs|]. intros Hne. now contradict Hne.
    + exists d. rewrite list_lookup_insert_ne by auto. repeat split; auto.
Qed.

Lemma documents_stay_in_place_witness :
  [member; lapsed] !! 1%nat = Some lapsed
  /\ exists d',
      docs (exec (OpUnsubscribeByEmail "a@x.com") (quiet 30)
              {| docs := [member; lapsed]; calls := [] |}) !! 1%nat = Some d'
      /\ email d' = "a@x.com" /\ source d' = Some "website".
Proof.
  split; [reflexivity|].
  destruct (documents_stay_in_place (OpUnsubscribeByEmail "a@x.com") (quiet 30)
              {| docs := [member; lapsed]; calls := [] |} 1%nat lapsed eq_refl)
    as (d' & Hd' & He & Hs & _).
  exists d'. repeat split; assumption.
Defined.

(* ===================================================================== *)
(** ** The listing follows the operations *)
(* ===================================================================== *)

Lemma query_from_elem (i : nat) (q : Query) (l : list Subscriber) (s : Subscriber) :
  s ∈ List.map snd (query_from i q l) <-> s ∈ l /\ matches q s = true.
Proof.
  revert i. induction l as [|a l IH]; intros i; simpl.
  - split; [intros H; inversion H|intros [H _]; inversion H].
  - destruct (matches q a) eqn:Ha; simpl; rewrite ?elem_of_cons, IH, ?elem_of_cons.
    + split; [intros [->|[H1 H2]]; auto|intros [[->|H1] H2]; auto].
    + split; [intros [H1 H2]; auto|intros [[->|H1] H2]; [congruence|auto]].
Qed.

Lemma active_listing_eq (env : Env) (w : World) :
  active_listing env w
  = if read_fails env then [] else List.map snd (query_from 0 WhereActive (docs w)).
Proof. unfold active_listing. now rewrite getActiveSubscribers_eq. Qed.

Lemma active_listing_elem (env : Env) (w : World) (s : Subscriber) :
  s ∈ active_listing env w -> s ∈ docs w /\ active s = true.
Proof.
  rewrite active_listing_eq. destruct (read_fails env); [intros H; inversion H|].
  apply query_from_elem.
Qed.

(** X9. A successful subscription shows in the listing: the document the
    call reported is among the subscribers [getActiveSubscribers]
    returns next. *)
Theorem subscribed_is_listed (env env' : Env) (w w1 : World) (e src : string) r :
  reliable env -> read_fails env' = false ->
  addSubscriber e src env w = Returned r w1 -> success r = true ->
  exists i d, subscriber r = Some (i, d) /\ email d = e /\ d ∈ active_listing env' w1.
Proof.
  intros Hrel Hr' Hrun Hs.
  destruct (found_after_subscribe env env' w w1 e src r Hrel Hr' Hrun Hs)
    as (i & d & Hf & Hsub & He & Ha & _).
  exists i, d. split; [exact Hsub|]. split; [exact He|].
  rewrite active_listing_eq, Hr'. apply query_from_elem. split; [|exact Ha].
  apply found_Some in Hf as (_ & Hi & _). now apply list_elem_of_lookup_2 with i.
Qed.

Lemma subscribed_is_listed_witness :
  reliable (quiet 30) /\ read_fails (quiet 40) = false /\
  exists r w1 i d,
    addSubscriber "a@x.com" "website" (quiet 30) empty_world = Returned r w1
    /\ success r = true
    /\ subscriber r = Some (i, d) /\ email d = "a@x.com"
    /\ d ∈ active_listing (quiet 40) w1.
Proof.
  split; [split; reflexivity|]. split; [reflexivity|].
  destruct (addSubscriber_results (quiet 30) empty_world "a@x.com" "website")
    as (r & w1 & Hrun & _).
  assert (Hs : success r = true).
  { assert (Hv : succeeded (addSubscriber "a@x.com" "website" (quiet 30) empty_world) = true)
      by (vm_compute; reflexivity).
    now rewrite Hrun in Hv. }
  destruct (subscribed_is_listed (quiet 30) (quiet 40) empty_world w1 "a@x.com" "website" r
              (conj eq_refl eq_refl) eq_refl Hrun Hs) as (i & d & H1 & H2 & H3).
  exists r, w1, i, d. repeat split; assumption.
Defined.

(** After a successful unsubscription in a collection with one record
    per address, every document of the address is inactive. *)
Lemma unsubscribed_record_inactive (op : Op) (env : Env) (w : World) (s : Subscriber) :
  is_unsubscribe op = true ->
  one_record_per_email (docs w) ->
  succeeded (run_op op env w) = true ->
  s ∈ docs (exec op env w) -> email s = op_email op -> active s = false.
Proof.
  intros Hop Hnodup Hs Hin He.
  assert (Hafter : exists i d1, first_record (op_email op) (docs (exec op env w)) i d1
                               /\ active d1 = false
                               /\ email <$> docs (exec op env w) = email <$> docs w).
  { unfold exec. destruct op as [e src|e|e t]; [discriminate Hop| |]; simpl in *.
    - destruct (unsubscribeByEmail e env w) as [r w'|] eqn:Hrun; [|discriminate Hs].
      destruct (unsubscribeByEmail_success env w w' e r Hrun Hs)
        as (i & d & Hfirst & Ha & Hdocs).
      simpl. rewrite Hdocs.
      exists i, (deactivated (now env) d). split; [|split; [reflexivity|]].
      + apply first_record_insert with d; [exact Hfirst|reflexivity].
      + apply emails_after_rewrite with d; [apply Hfirst|reflexivity].
    - destruct (unsubscribeByToken e t env w) as [r w'|] eqn:Hrun; [|discriminate Hs].
      destruct (unsubscribeByToken_success env w w' e t r Hrun Hs)
        as (i & d & Hfirst & [[Ha Hdocs]|[Ha Hdocs]]); simpl; rewrite Hdocs.
      + exists i, d. auto.
      + exists i, (deactivated (now env) d). split; [|split; [reflexivity|]].
        * apply first_record_insert with d; [exact Hfirst|reflexivity].
        * apply emails_after_rewrite with d; [apply Hfirst|reflexivity]. }
  destruct Hafter as (i & d1 & (Hi & He1 & _) & Ha1 & Hemails).
  apply list_elem_of_lookup_1 in Hin as (j & Hj).
  unfold one_record_per_email in Hnodup. rewrite <- Hemails in Hnodup.
  assert (i = j) as ->.
  { apply (NoDup_lookup _ i j (op_email op) Hnodup).
    - now rewrite list_lookup_fmap, Hi; simpl; rewrite He1.
    - now rewrite list_lookup_fmap, Hj; simpl; rewrite He. }
  congruence.
Qed.

(** X10. A successful unsubscription, by address or by token, takes the
    address off the listing: in a collection with one record per address,
    no subscriber [getActiveSubscribers] returns afterwards has the
    address. *)
Theorem unsubscribed_is_not_listed (op : Op) (env env' : Env) (w : World) (s : Subscriber) :
  is_unsubscribe op = true ->
  one_record_per_email (docs w) ->
  succeeded (run_op op env w) = true ->
  s ∈ active_listing env' (exec op env w) ->
  email s <> op_email op.
Proof.
  intros Hop Hnodup Hs Hin He.
  apply active_listing_elem in Hin as (Hin & Ha).
  rewrite (unsubscribed_record_inactive op env w s Hop Hnodup Hs Hin He) in Ha.
  discriminate Ha.
Qed.

Lemma unsubscribed_is_not_listed_witness :
  is_unsubscribe (OpUnsubscribeByEmail "a@x.com") = true
  /\ one_record_per_email [member]
  /\ succeeded (run_op (OpUnsubscribeByEmail "a@x.com") (quiet 30)
                  {| docs := [member]; calls := [] |}) = true
  /\ forall s,
      s ∈ active_listing (quiet 40)
            (exec (OpUnsubscribeByEmail "a@x.com") (quiet 30)
               {| docs := [member]; calls := [] |}) ->
      email s <> "a@x.com".
Proof.
  assert (H : one_record_per_email [member]) by apply NoDup_singleton.
  split; [reflexivity|]. split; [exact H|]. split; [reflexivity|].
  intros s.
  exact (unsubscribed_is_not_listed (OpUnsubscribeByEmail "a@x.com") (quiet 30) (quiet 40)
           {| docs := [member]; calls := [] |} s eq_refl H eq_refl).
Defined.

(* ===================================================================== *)
(** ** The address pattern *)
(* ===================================================================== *)

Lemma plus_then_split (cls : N -> bool) (k : list N -> bool) (s : list N) :
  JS.plus_then cls k s = true <->
  exists a r, s = (a ++ r)%list /\ a <> [] /\ Forall (fun c => cls c = true) a /\ k r = true.
Proof.
  induction s as [|c s IH]; simpl.
  - split; [discriminate|]. intros (a & r & Hs & Ha & _).
    destruct a; [now contradict Ha|discriminate Hs].
  - rewrite andb_true_iff, orb_true_iff, IH. split.
    + intros [Hc [Hk|(a & r & -> & Ha & Hall & Hk)]].
      * exists [c], s. repeat split; auto; try discriminate.
      * exists (c :: a), r. repeat split; auto; try discriminate.
    + intros (a & r & Hs & Ha & Hall & Hk).
      destruct a as [|c' a]; [now contradict Ha|].
      injection Hs as <- ->. apply Forall_cons in Hall as [Hc Hall].
      split; [exact Hc|]. destruct a as [|c2 a]; [now left|].
      right. exists (c2 :: a), r. repeat split; auto; try discriminate.
Qed.

Lemma char_then_split (x : N) (k : list N -> bool) (s : list N) :
  JS.char_then x k s = true <-> exists r, s = x :: r /\ k r = true.
Proof.
  destruct s as [|c s]; simpl.
  - split; [discriminate|]. intros (r & Hs & _). discriminate Hs.
  - rewrite andb_true_iff, N.eqb_eq. split.
    + intros [-> Hk]. eauto.
    + intros (r & [= -> ->] & Hk). auto.
Qed.

Lemma at_end_nil (s : list N) : JS.at_end s = true <-> s = [].
Proof. destruct s; simpl; split; congruence. Qed.

Lemma emailRegex_test_split (e : string) :
  JS.emailRegex_test e = true <->
  exists loc dom tld,
    JS.code_points e = (loc ++ 64%N :: dom ++ 46%N :: tld)%list
    /\ loc <> [] /\ dom <> [] /\ tld <> []
    /\ Forall (fun c => JS.not_space_at c = true) loc
    /\ Forall (fun c => JS.not_space_at c = true) dom
    /\ Forall (fun c => JS.not_space_at c = true) tld.
Proof.
  unfold JS.emailRegex_test. rewrite plus_then_split. split.
  - intros (loc & r1 & Hs & Hloc & Hall1 & H1).
    apply char_then_split in H1 as (r2 & -> & H2).
    apply plus_then_split in H2 as (dom & r3 & -> & Hdom & Hall2 & H3).
    apply char_then_split in H3 as (r4 & -> & H4).
    apply plus_then_split in H4 as (tld & r5 & -> & Htld & Hall3 & H5).
    apply at_end_nil in H5 as ->. rewrite app_nil_r in Hs.
    exists loc, dom, tld. repeat split; assumption.
  - intros (loc & dom & tld & Hs & Hloc & Hdom & Htld & Hall1 & Hall2 & Hall3).
    exists loc, (64%N :: dom ++ 46%N :: tld)%list.
    split; [exact Hs|]. split; [exact Hloc|]. split; [exact Hall1|].
    apply char_then_split. eexists. split; [reflexivity|].
    apply plus_then_split. exists dom, (46%N :: tld). repeat split; auto.
    apply char_then_split. eexists. split; [reflexivity|].
    apply plus_then_split. exists tld, []. rewrite app_nil_r. repeat split; auto.
Qed.

(** X11. The address pattern accepts exactly the strings of the form
    local\@domain.tld: the characters split into three non-empty runs,
    free of white space and of \@, separated by one \@ and by a dot after
    it. *)
Theorem emailRegex_accepts_exactly (e : string) :
  JS.emailRegex_test e = true <->
  exists loc dom tld,
    JS.code_points e = (loc ++ 64%N :: dom ++ 46%N :: tld)%list
    /\ loc <> [] /\ dom <> [] /\ tld <> []
    /\ Forall (fun c => JS.not_space_at c = true) loc
    /\ Forall (fun c => JS.not_space_at c = true) dom
    /\ Forall (fun c => JS.not_space_at c = true) tld.
Proof. apply emailRegex_test_split. Qed.

Lemma emailRegex_accepts_exactly_witness :
  JS.emailRegex_test "a@x.com" = true
  /\ exists loc dom tld,
      JS.code_points "a@x.com" = (loc ++ 64%N :: dom ++ 46%N :: tld)%list
      /\ loc <> [] /\ dom <> [] /\ tld <> [].
Proof.
  split; [reflexivity|].
  destruct (proj1 (emailRegex_accepts_exactly "a@x.com") eq_refl)
    as (loc & dom & tld & H & H1 & H2 & H3 & _).
  exists loc, dom, tld. repeat split; assumption.
Defined.

(* ===================================================================== *)
(** ** [POST /api/subscribe] and [POST /api/unsubscribe] *)
(* ===================================================================== *)

Lemma POST_subscribe_valid (env : Env) (w : World) (e : string) :
  JS.emailRegex_test e = true ->
  SubscribeRoute.POST (Fields (Some e)) env w
  = match addSubscriber e "website" env w with
    | Returned r w' =>
        Returned
          (if success r
           then NextResponse_json (JObject [("message", JString (message r))]) 200
           else NextResponse_json (JObject [("error", JString (message r))])
                  (if JS.includes (message r) "already subscribed" then 409 else 400))
          w'
    | Thrown w' => Returned internal_server_error w'
    end.
Proof.
  intros Hre. unfold SubscribeRoute.POST, try_catch, bind. simpl.
  rewrite (emailRegex_truthy e Hre), Hre. simpl.
  destruct (addSubscriber e "website" env w) as [r w'|]; [|reflexivity].
  now destruct (success r).
Qed.

Lemma POST_unsubscribe_valid (env : Env) (w : World) (e : string) :
  JS.emailRegex_test e = true ->
  UnsubscribeRoute.POST (Fields (Some e)) env w
  = match unsubscribeByEmail e env w with
    | Returned r w' =>
        Returned
          (if success r
           then NextResponse_json (JObject [("message", JString (message r))]) 200
           else NextResponse_json (JObject [("error", JString (message r))])
                  (if JS.includes (message r) "not found" then 404
                   else if JS.includes (message r) "already unsubscribed" then 409
                   else 400))
          w'
    | Thrown w' => Returned internal_server_error w'
    end.
Proof.
  intros Hre. unfold UnsubscribeRoute.POST, try_catch, bind. simpl.
  rewrite (emailRegex_truthy e Hre), Hre. simpl.
  destruct (unsubscribeByEmail e env w) as [r w'|]; [|reflexivity].
  now destruct (success r).
Qed.




Lemma POST_subscribe_new (env : Env) (w : World) (e : string) :
  JS.emailRegex_test e = true -> reliable env -> no_record e (docs w) ->
  exists w',
    SubscribeRoute.POST (Fields (Some e)) env w
    = Returned {| body := JObject [("message",
                                    JString "Successfully subscribed to QuanticDaily!")];
                  status := 200 |} w'
    /\ docs w' = (docs w ++ [fresh_subscriber env e "website"])%list.
Proof.
  intros Hre [Hr Hw] Hno. rewrite (POST_subscribe_valid env w e Hre).
  destruct (addSubscriber_absent env w e "website" (found_no_record env e w Hno) Hw)
    as (w' & -> & Hdocs).
  exists w'. split; [reflexivity|exact Hdocs].
Qed.

Lemma POST_subscribe_again (env : Env) (w : World) (e : string) i d :
  JS.emailRegex_test e = true -> read_fails env = false ->
  first_record e (docs w) i d -> active d = true ->
  exists w',
    SubscribeRoute.POST (Fields (Some e)) env w
    = Returned {| body := JObject [("error", JString "This email is already subscribed")];
                  status := 409 |} w'
    /\ docs w' = docs w.
Proof.
  intros Hre Hr Hfirst Ha. rewrite (POST_subscribe_valid env w e Hre).
  destruct (addSubscriber_active env w e "website" i d
              (found_first_record env e w i d Hr Hfirst) Ha) as (w' & -> & Hdocs).
  exists w'. split; [reflexivity|exact Hdocs].
Qed.

Lemma POST_unsubscribe_active (env : Env) (w : World) (e : string) i d :
  JS.emailRegex_test e = true -> reliable env ->
  first_record e (docs w) i d -> active d = true ->
  exists w',
    UnsubscribeRoute.POST (Fields (Some e)) env w
    = Returned {| body := JObject [("message",
                                    JString "Successfully unsubscribed from QuanticDaily!")];
                  status := 200 |} w'
    /\ docs w' = <[i := deactivated (now env) d]> (docs w).
Proof.
  intros Hre [Hr Hw] Hfirst Ha. rewrite (POST_unsubscribe_valid env w e Hre).
  destruct (unsubscribeByEmail_active env w e i d
              (found_first_record env e w i d Hr Hfirst) Ha Hw) as (w' & -> & Hdocs).
  exists w'. split; [reflexivity|exact Hdocs].
Qed.

Lemma POST_unsubscribe_inactive (env : Env) (w : World) (e : string) i d :
  JS.emailRegex_test e = true -> read_fails env = false ->
  first_record e (docs w) i d -> active d = false ->
  exists w',
    UnsubscribeRoute.POST (Fields (Some e)) env w
    = Returned {| body := JObject [("error", JString "This email is already unsubscribed")];
                  status := 409 |} w'
    /\ docs w' = docs w.
Proof.
  intros Hre Hr Hfirst Ha. rewrite (POST_unsubscribe_valid env w e Hre).
  destruct (unsubscribeByEmail_inactive env w e i d
              (found_first_record env e w i d Hr Hfirst) Ha) as (w' & -> & Hdocs).
  exists w'. split; [reflexivity|exact Hdocs].
Qed.

(** X13. [POST /api/subscribe] for a well-formed address, Firestore
    answering: 200 and one new document with source ['website'] when the
    address is unknown; 409 and no change when its record is active; 200
    and the record reactivated in place when it is inactive. *)
Theorem POST_subscribe_statuses (env : Env) (w : World) (e : string) :
  JS.emailRegex_test e = true -> reliable env ->
  (no_record e (docs w) ->
   exists w',
     SubscribeRoute.POST (Fields (Some e)) env w
     = Returned {| body := JObject [("message",
                                     JString "Successfully subscribed to QuanticDaily!")];
                   status := 200 |} w'
     /\ docs w' = (docs w ++ [fresh_subscriber env e "website"])%list)
  /\ (forall i d, first_record e (docs w) i d -> active d = true ->
      exists w',
        SubscribeRoute.POST (Fields (Some e)) env w
        = Returned {| body := JObject [("error", JString "This email is already subscribed")];
                      status := 409 |} w'
        /\ docs w' = docs w)
  /\ (forall i d, first_record e (docs w) i d -> active d = false ->
      exists w',
        SubscribeRoute.POST (Fields (Some e)) env w
        = Returned {| body := JObject [("message",
                                        JString "Successfully resubscribed to QuanticDaily!")];
                      status := 200 |} w'
        /\ docs w'
           = <[i := reactivated (now env)
                      (generateUnsubscribeToken (UNSUBSCRIBE_SECRET env) e) d]> (docs w)).
Proof.
  intros Hre Hrel. split; [|split].
  - now apply POST_subscribe_new.
  - intros i d. apply POST_subscribe_again; [exact Hre|apply Hrel].
  - intros i d Hfirst Ha. destruct Hrel as [Hr Hw].
    rewrite (POST_subscribe_valid env w e Hre).
    destruct (addSubscriber_inactive env w e "website" i d
                (found_first_record env e w i d Hr Hfirst) Ha Hw) as (w' & -> & Hdocs & _).
    exists w'. split; [reflexivity|exact Hdocs].
Qed.

Lemma POST_subscribe_statuses_witness :
  JS.emailRegex_test "a@x.com" = true /\ reliable (quiet 30)
  /\ exists w',
      SubscribeRoute.POST (Fields (Some "a@x.com")) (quiet 30)
                          {| docs := [member]; calls := [] |}
      = Returned {| body := JObject [("error", JString "This email is already subscribed")];
                    status := 409 |} w'
      /\ docs w' = [member].
Proof.
  split; [reflexivity|]. split; [split; reflexivity|].
  destruct (POST_subscribe_statuses (quiet 30) {| docs := [member]; calls := [] |} "a@x.com"
              eq_refl (conj eq_refl eq_refl)) as (_ & H & _).
  exact (H 0%nat member (first_record_head member []) eq_refl).
Defined.

(** X14. [POST /api/unsubscribe] for a well-formed address, Firestore
    answering: 404 when the address is unknown and 409 when its record is
    already inactive, both without any change; 200 and the record
    deactivated when it is active. *)
Theorem POST_unsubscribe_statuses (env : Env) (w : World) (e : string) :
  JS.emailRegex_test e = true -> reliable env ->
  (no_record e (docs w) ->
   exists w',
     UnsubscribeRoute.POST (Fields (Some e)) env w
     = Returned {| body := JObject [("error",
                                     JString "Email address not found in our subscriber list")];
                   status := 404 |} w'
     /\ docs w' = docs w)
  /\ (forall i d, first_record e (docs w) i d -> active d = false ->
      exists w',
        UnsubscribeRoute.POST (Fields (Some e)) env w
        = Returned {| body := JObject [("error", JString "This email is already unsubscribed")];
                      status := 409 |} w'
        /\ docs w' = docs w)
  /\ (forall i d, first_record e (docs w) i d -> active d = true ->
      exists w',
        UnsubscribeRoute.POST (Fields (Some e)) env w
        = Returned {| body := JObject [("message",
                                        JString "Successfully unsubscribed from QuanticDaily!")];
                      status := 200 |} w'
        /\ docs w' = <[i := deactivated (now env) d]> (docs w)).
Proof.
  intros Hre Hrel. split; [|split].
  - intros Hno. rewrite (POST_unsubscribe_valid env w e Hre).
    destruct (unsubscribeByEmail_absent env w e (found_no_record env e w Hno))
      as (w' & -> & Hdocs).
    exists w'. split; [reflexivity|exact Hdocs].
  - intros i d. apply POST_unsubscribe_inactive; [exact Hre|apply Hrel].
  - intros i d. now apply POST_unsubscribe_active.
Qed.

Lemma POST_unsubscribe_statuses_witness :
  JS.emailRegex_test "a@x.com" = true /\ reliable (quiet 30)
  /\ exists w',
      UnsubscribeRoute.POST (Fields (Some "a@x.com")) (quiet 30) empty_world
      = Returned {| body := JObject [("error",
                                      JString "Email address not found in our subscriber list")];
                    status := 404 |} w'
      /\ docs w' = [].
Proof.
  split; [reflexivity|]. split; [split; reflexivity|].
  destruct (POST_unsubscribe_statuses (quiet 30) empty_world "a@x.com"
              eq_refl (conj eq_refl eq_refl)) as (H & _ & _).
  apply H. intros d Hd. inversion Hd.
Defined.

(** X15. The session subscribe, subscribe, unsubscribe, unsubscribe,
    token link: for a well-formed address the collection does not know,
    with Firestore answering throughout, the five requests are answered
    200, 409, 200, 409, 200, and the collection ends with one more
    document than it started with, inactive. *)
Theorem subscribe_unsubscribe_session
    (env1 env2 env3 env4 env5 : Env) (w : World) (e : string) :
  JS.emailRegex_test e = true -> no_record e (docs w) ->
  reliable env1 -> reliable env2 -> reliable env3 -> reliable env4 -> reliable env5 ->
  exists r1 w1 r2 w2 r3 w3 r4 w4 r5 w5,
    SubscribeRoute.POST (Fields (Some e)) env1 w = Returned r1 w1 /\ status r1 = 200
    /\ SubscribeRoute.POST (Fields (Some e)) env2 w1 = Returned r2 w2 /\ status r2 = 409
    /\ UnsubscribeRoute.POST (Fields (Some e)) env3 w2 = Returned r3 w3 /\ status r3 = 200
    /\ UnsubscribeRoute.POST (Fields (Some e)) env4 w3 = Returned r4 w4 /\ status r4 = 409
    /\ UnsubscribeRoute.GET (Some (generateUnsubscribeToken (UNSUBSCRIBE_SECRET env5) e))
         (Some e) env5 w4 = Returned r5 w5
    /\ status r5 = 200
    /\ docs w5
       = (docs w ++ [deactivated (now env3) (fresh_subscriber env1 e "website")])%list.
Proof.
  intros Hre Hno Hrel1 Hrel2 Hrel3 Hrel4 Hrel5.
  set (d1 := fresh_subscriber env1 e "website").
  set (i := List.length (docs w)).
  destruct (POST_subscribe_new env1 w e Hre Hrel1 Hno) as (w1 & Hrun1 & Hdocs1).
  assert (Hfirst1 : first_record e (docs w1) i d1)
    by (rewrite Hdocs1; now apply first_record_app_new).
  destruct (POST_subscribe_again env2 w1 e i d1 Hre (proj1 Hrel2) Hfirst1 eq_refl)
    as (w2 & Hrun2 & Hdocs2).
  assert (Hfirst2 : first_record e (docs w2) i d1) by now rewrite Hdocs2.
  destruct (POST_unsubscribe_active env3 w2 e i d1 Hre Hrel3 Hfirst2 eq_refl)
    as (w3 & Hrun3 & Hdocs3).
  assert (Hfirst3 : first_record e (docs w3) i (deactivated (now env3) d1)).
  { rewrite Hdocs3. apply first_record_insert with d1; [exact Hfirst2|reflexivity]. }
  destruct (POST_unsubscribe_inactive env4 w3 e i _ Hre (proj1 Hrel4) Hfirst3 eq_refl)
    as (w4 & Hrun4 & Hdocs4).
  assert (Hfirst4 : first_record e (docs w4) i (deactivated (now env3) d1))
    by now rewrite Hdocs4.
  destruct (GET_unsubscribe_present env5 w4
              (generateUnsubscribeToken (UNSUBSCRIBE_SECRET env5) e) e
              eq_refl (emailRegex_truthy e Hre))
    as (r & w5 & r5 & Hsvc & Hrun5 & Hok & _).
  rewrite unsubscribeByToken_right in Hsvc. cbv zeta in Hsvc.
  rewrite (found_first_record env5 e w4 i _ (proj1 Hrel5) Hfirst4) in Hsvc. simpl in Hsvc.
  injection Hsvc as <- <-.
  eexists _, w1, _, w2, _, w3, _, w4, r5, _.
  split; [exact Hrun1|]. split; [reflexivity|].
  split; [exact Hrun2|]. split; [reflexivity|].
  split; [exact Hrun3|]. split; [reflexivity|].
  split; [exact Hrun4|]. split; [reflexivity|].
  split; [exact Hrun5|]. split; [now rewrite (Hok eq_refl)|].
  simpl. rewrite Hdocs4, Hdocs3, Hdocs2, Hdocs1.
  unfold i. rewrite insert_app_r_alt by lia. now rewrite Nat.sub_diag.
Qed.

Lemma subscribe_unsubscribe_session_witness :
  JS.emailRegex_test "a@x.com" = true /\ no_record "a@x.com" []
  /\ reliable (quiet 10)
  /\ exists r1 w1 r2 w2 r3 w3 r4 w4 r5 w5,
      SubscribeRoute.POST (Fields (Some "a@x.com")) (quiet 10) empty_world = Returned r1 w1
      /\ status r1 = 200
      /\ SubscribeRoute.POST (Fields (Some "a@x.com")) (quiet 20) w1 = Returned r2 w2
      /\ status r2 = 409
      /\ UnsubscribeRoute.POST (Fields (Some "a@x.com")) (quiet 30) w2 = Returned r3 w3
      /\ status r3 = 200
      /\ UnsubscribeRoute.POST (Fields (Some "a@x.com")) (quiet 40) w3 = Returned r4 w4
      /\ status r4 = 409
      /\ UnsubscribeRoute.GET (Some (generateUnsubscribeToken None "a@x.com"))
           (Some "a@x.com") (quiet 50) w4 = Returned r5 w5
      /\ status r5 = 200.
Proof.
  assert (Hno : no_record "a@x.com" []) by (intros d Hd; inversion Hd).
  split; [reflexivity|]. split; [exact Hno|]. split; [split; reflexivity|].
  destruct (subscribe_unsubscribe_session (quiet 10) (quiet 20) (quiet 30) (quiet 40) (quiet 50)
              empty_world "a@x.com" eq_refl Hno
              (conj eq_refl eq_refl) (conj eq_refl eq_refl) (conj eq_refl eq_refl)
              (conj eq_refl eq_refl) (conj eq_refl eq_refl))
    as (r1 & w1 & r2 & w2 & r3 & w3 & r4 & w4 & r5 & w5
        & H1 & S1 & H2 & S2 & H3 & S3 & H4 & S4 & H5 & S5 & _).
  exists r1, w1, r2, w2, r3, w3, r4, w4, r5, w5. repeat split; assumption.
Defined.

(* ===================================================================== *)
(** ** Strings and characters *)
(* ===================================================================== *)

Lemma string_app_assoc (a b c : string) : (a ++ b) ++ c = a ++ (b ++ c).
Proof. induction a as [|x a IH]; simpl; [reflexivity|now rewrite IH]. Qed.

Lemma string_length_app (a b : string) :
  String.length (a ++ b) = (String.length a + String.length b)%nat.
Proof. induction a as [|x a IH]; simpl; [reflexivity|now rewrite IH]. Qed.

Lemma all_chars_app (p : ascii -> bool) (a b : string) :
  all_chars p (a ++ b) = all_chars p a && all_chars p b.
Proof.
  induction a as [|x a IH]; simpl; [reflexivity|]. now rewrite IH, andb_assoc.
Qed.

Lemma all_chars_impl (p q : ascii -> bool) (s : string) :
  (forall c, p c = true -> q c = true) -> all_chars p s = true -> all_chars q s = true.
Proof.
  intros Hpq. induction s as [|x s IH]; simpl; [reflexivity|].
  rewrite !andb_true_iff. intros [Hx Hs]. auto.
Qed.

(** Case analysis over the 256 characters. *)
Ltac each_char c := destruct c as [[] [] [] [] [] [] [] []].

(* ===================================================================== *)
(** ** Tokens are 64 hexadecimal digits *)
(* ===================================================================== *)

Lemma hex_digit_lower (d : Z) : 0 <= d < 16 -> lower_hex (SHA256.hex_digit d) = true.
Proof.
  intros Hd.
  assert (H : d = 0 \/ d = 1 \/ d = 2 \/ d = 3 \/ d = 4 \/ d = 5 \/ d = 6 \/ d = 7
              \/ d = 8 \/ d = 9 \/ d = 10 \/ d = 11 \/ d = 12 \/ d = 13 \/ d = 14 \/ d = 15)
    by lia.
  repeat (destruct H as [->|H]; [reflexivity|]). now subst.
Qed.

Lemma hex_shape (n : nat) (x : Z) :
  String.length (SHA256.hex n x) = n /\ all_chars lower_hex (SHA256.hex n x) = true.
Proof.
  induction n as [|n [IHl IHc]]; simpl; [now split|].
  rewrite IHl, IHc, andb_true_r. split; [reflexivity|].
  apply hex_digit_lower. apply Z.mod_pos_bound. lia.
Qed.

Lemma sha256_hex_shape (s : string) :
  String.length (SHA256.sha256_hex s) = 64%nat
  /\ all_chars lower_hex (SHA256.sha256_hex s) = true.
Proof.
  unfold SHA256.sha256_hex, SHA256.hex_of_regs.
  generalize (SHA256.digest (SHA256.bytes_of_string s)). intros r.
  rewrite !string_length_app, !all_chars_app.
  rewrite !(proj1 (hex_shape 8 _)), !(proj2 (hex_shape 8 _)). now split.
Qed.

(** X16. Every unsubscribe token, of the web library and of the script,
    is a string of exactly 64 lower-case hexadecimal digits, whatever the
    address and the secret. *)
Theorem tokens_are_64_hex_digits (secret : option string) (e : string) :
  (String.length (generateUnsubscribeToken secret e) = 64%nat
   /\ all_chars lower_hex (generateUnsubscribeToken secret e) = true)
  /\ (String.length (Script.generateUnsubscribeToken secret e) = 64%nat
      /\ all_chars lower_hex (Script.generateUnsubscribeToken secret e) = true).
Proof. split; apply sha256_hex_shape. Qed.

(* ===================================================================== *)
(** ** Query strings *)
(* ===================================================================== *)

Lemma percent_decode_escape (c : ascii) (rest : string) :
  URI.percent_decode (URI.escape c ++ rest) = String c (URI.percent_decode rest).
Proof. each_char c; reflexivity. Qed.

Lemma percent_decode_unreserved (c : ascii) (rest : string) :
  URI.unreserved c = true ->
  URI.percent_decode (String c rest) = String c (URI.percent_decode rest).
Proof. each_char c; try discriminate; reflexivity. Qed.

Lemma plus_to_space_escape (c : ascii) (rest : string) :
  URI.plus_to_space (URI.escape c ++ rest) = URI.escape c ++ URI.plus_to_space rest.
Proof. each_char c; reflexivity. Qed.

Lemma plus_to_space_unreserved (c : ascii) (rest : string) :
  URI.unreserved c = true ->
  URI.plus_to_space (String c rest) = String c (URI.plus_to_space rest).
Proof. each_char c; try discriminate; reflexivity. Qed.

Lemma decode_encodeURIComponent (s : string) :
  URI.decode (URI.encodeURIComponent s) = s.
Proof.
  unfold URI.decode.
  assert (Hplus : URI.plus_to_space (URI.encodeURIComponent s) = URI.encodeURIComponent s).
  { induction s as [|c s IH]; [reflexivity|]. cbn [URI.encodeURIComponent].
    destruct (URI.unreserved c) eqn:Hc.
    - now rewrite plus_to_space_unreserved, IH.
    - now rewrite plus_to_space_escape, IH. }
  rewrite Hplus. induction s as [|c s IH]; [reflexivity|]. cbn [URI.encodeURIComponent].
  destruct (URI.unreserved c) eqn:Hc.
  - rewrite percent_decode_unreserved by exact Hc. f_equal. apply IH.
    clear IH. cbn [URI.encodeURIComponent] in Hplus. rewrite Hc in Hplus.
    rewrite plus_to_space_unreserved in Hplus by exact Hc. now injection Hplus.
  - rewrite percent_decode_escape. f_equal. apply IH.
    clear IH. cbn [URI.encodeURIComponent] in Hplus. rewrite Hc in Hplus.
    rewrite plus_to_space_escape in Hplus.
    revert Hplus. generalize (URI.plus_to_space (URI.encodeURIComponent s)).
    generalize (URI.encodeURIComponent s). intros a b. unfold URI.escape. simpl.
    now intros [= ->].
Qed.

Lemma escape_escaped (c : ascii) : all_chars escaped (URI.escape c) = true.
Proof. each_char c; reflexivity. Qed.

Lemma encodeURIComponent_escaped (s : string) :
  all_chars escaped (URI.encodeURIComponent s) = true.
Proof.
  induction s as [|c s IH]; [reflexivity|]. cbn [URI.encodeURIComponent].
  destruct (URI.unreserved c) eqn:Hc.
  - simpl. unfold escaped at 1. now rewrite Hc, IH.
  - now rewrite all_chars_app, escape_escaped, IH.
Qed.

Lemma escaped_query_safe (c : ascii) : escaped c = true -> query_safe c = true.
Proof. each_char c; try discriminate; reflexivity. Qed.

Lemma lower_hex_query_safe (c : ascii) : lower_hex c = true -> query_safe c = true.
Proof. each_char c; try discriminate; reflexivity. Qed.

Lemma lower_hex_unreserved (c : ascii) : lower_hex c = true -> URI.unreserved c = true.
Proof. each_char c; try discriminate; reflexivity. Qed.

(** Hexadecimal digits need no escaping. *)
Lemma encodeURIComponent_hex (s : string) :
  all_chars lower_hex s = true -> URI.encodeURIComponent s = s.
Proof.
  induction s as [|c s IH]; [reflexivity|]. simpl.
  rewrite andb_true_iff. intros [Hc Hs].
  now rewrite (lower_hex_unreserved c Hc), IH.
Qed.

Lemma trim_leading_id (s : string) :
  all_chars (fun c => negb (URI.c0_or_space c)) s = true -> URI.trim_leading s = s.
Proof.
  destruct s as [|c s]; [reflexivity|]. simpl. rewrite andb_true_iff, negb_true_iff.
  now intros [-> _].
Qed.

Lemma trim_trailing_id (s : string) :
  all_chars (fun c => negb (URI.c0_or_space c)) s = true -> URI.trim_trailing s = s.
Proof.
  induction s as [|c s IH]; [reflexivity|]. simpl. rewrite andb_true_iff, negb_true_iff.
  intros [Hc Hs]. rewrite (IH Hs), Hc. now destruct s.
Qed.

Lemma tab_or_newline_c0 (c : ascii) : URI.c0_or_space c = false -> URI.tab_or_newline c = false.
Proof. each_char c; try discriminate; reflexivity. Qed.

Lemma remove_tab_newline_id (s : string) :
  all_chars (fun c => negb (URI.c0_or_space c)) s = true -> URI.remove_tab_newline s = s.
Proof.
  induction s as [|c s IH]; [reflexivity|]. simpl. rewrite andb_true_iff, negb_true_iff.
  intros [Hc Hs]. now rewrite (tab_or_newline_c0 c Hc), (IH Hs).
Qed.

Lemma before_absent (sep : ascii) (s : string) :
  all_chars (fun c => negb (Ascii.eqb c sep)) s = true -> URI.before sep s = s.
Proof.
  induction s as [|c s IH]; [reflexivity|]. simpl. rewrite andb_true_iff, negb_true_iff.
  intros [-> Hs]. now rewrite (IH Hs).
Qed.

Lemma after_first (sep : ascii) (a b : string) :
  all_chars (fun c => negb (Ascii.eqb c sep)) a = true ->
  URI.after sep (a ++ String sep b) = b.
Proof.
  induction a as [|c a IH]; simpl.
  - now rewrite Ascii.eqb_refl.
  - rewrite andb_true_iff, negb_true_iff. intros [-> Ha]. now apply IH.
Qed.

Lemma split_absent (sep : ascii) (s : string) :
  all_chars (fun c => negb (Ascii.eqb c sep)) s = true -> URI.split sep s = (s, []).
Proof.
  induction s as [|c s IH]; [reflexivity|]. simpl. rewrite andb_true_iff, negb_true_iff.
  intros [-> Hs]. now rewrite (IH Hs).
Qed.

Lemma split_first (sep : ascii) (a b : string) :
  all_chars (fun c => negb (Ascii.eqb c sep)) a = true ->
  URI.split sep (a ++ String sep b) = (a, URI.pieces sep b).
Proof.
  induction a as [|c a IH]; simpl.
  - rewrite Ascii.eqb_refl. unfold URI.pieces. now destruct (URI.split sep b).
  - rewrite andb_true_iff, negb_true_iff. intros [-> Ha]. now rewrite (IH Ha).
Qed.

Lemma query_safe_parts (c : ascii) :
  query_safe c = true ->
  negb (URI.c0_or_space c) = true /\ negb (Ascii.eqb c "&") = true
  /\ negb (Ascii.eqb c "#") = true.
Proof. unfold query_safe. rewrite !andb_true_iff. tauto. Qed.

Lemma plain_parts (c : ascii) :
  plain c = true ->
  negb (URI.c0_or_space c) = true /\ negb (Ascii.eqb c "?") = true
  /\ negb (Ascii.eqb c "#") = true.
Proof. unfold plain. rewrite !andb_true_iff. tauto. Qed.

(** The query of [base?token=T&email=E]. *)
Lemma search_of_link (base T E : string) :
  all_chars plain base = true ->
  all_chars query_safe T = true -> all_chars query_safe E = true ->
  URI.search_of (base ++ "?token=" ++ T ++ "&email=" ++ E) = "token=" ++ T ++ "&email=" ++ E.
Proof.
  intros Hb HT HE. unfold URI.search_of.
  set (url := base ++ "?token=" ++ T ++ "&email=" ++ E).
  assert (Hspace : all_chars (fun c => negb (URI.c0_or_space c)) url = true).
  { unfold url. rewrite !all_chars_app. simpl.
    rewrite (all_chars_impl plain _ base (fun c H => proj1 (plain_parts c H)) Hb).
    rewrite (all_chars_impl query_safe _ T (fun c H => proj1 (query_safe_parts c H)) HT).
    now rewrite (all_chars_impl query_safe _ E (fun c H => proj1 (query_safe_parts c H)) HE). }
  assert (Hfrag : all_chars (fun c => negb (Ascii.eqb c "#")) url = true).
  { unfold url. rewrite !all_chars_app. simpl.
    rewrite (all_chars_impl plain _ base (fun c H => proj2 (proj2 (plain_parts c H))) Hb).
    rewrite (all_chars_impl query_safe _ T
               (fun c H => proj2 (proj2 (query_safe_parts c H))) HT).
    now rewrite (all_chars_impl query_safe _ E
                   (fun c H => proj2 (proj2 (query_safe_parts c H))) HE). }
  rewrite (trim_leading_id url Hspace), (trim_trailing_id url Hspace),
    (remove_tab_newline_id url Hspace), (before_absent "#" url Hfrag).
  unfold url. apply (after_first "?" base).
  exact (all_chars_impl plain _ base (fun c H => proj1 (proj2 (plain_parts c H))) Hb).
Qed.

Lemma parse_token_email (T E : string) :
  all_chars query_safe T = true -> all_chars query_safe E = true ->
  URI.parse ("token=" ++ T ++ "&email=" ++ E)
  = [("token", URI.decode T); ("email", URI.decode E)].
Proof.
  intros HT HE.
  assert (HT' : all_chars (fun c => negb (Ascii.eqb c "&")) ("token=" ++ T) = true).
  { simpl. exact (all_chars_impl query_safe _ T
                    (fun c H => proj1 (proj2 (query_safe_parts c H))) HT). }
  assert (HE' : all_chars (fun c => negb (Ascii.eqb c "&")) ("email=" ++ E) = true).
  { simpl. exact (all_chars_impl query_safe _ E
                    (fun c H => proj1 (proj2 (query_safe_parts c H))) HE). }
  unfold URI.parse, URI.pieces.
  change ("token=" ++ T ++ "&email=" ++ E) with (("token=" ++ T) ++ String "&" ("email=" ++ E)).
  rewrite (split_first "&" _ _ HT'). unfold URI.pieces. rewrite (split_absent "&" _ HE').
  reflexivity.
Qed.

Lemma searchParams_of_link (base T E : string) :
  all_chars plain base = true ->
  all_chars query_safe T = true -> all_chars query_safe E = true ->
  URI.searchParams_get "token" (base ++ "?token=" ++ T ++ "&email=" ++ E)
  = Some (URI.decode T)
  /\ URI.searchParams_get "email" (base ++ "?token=" ++ T ++ "&email=" ++ E)
     = Some (URI.decode E).
Proof.
  intros Hb HT HE. unfold URI.searchParams_get.
  rewrite (search_of_link base T E Hb HT HE), (parse_token_email T E HT HE).
  split; reflexivity.
Qed.

Lemma encodeURIComponent_query_safe (s : string) :
  all_chars query_safe (URI.encodeURIComponent s) = true.
Proof.
  apply all_chars_impl with escaped; [apply escaped_query_safe|].
  apply encodeURIComponent_escaped.
Qed.

(** X17. Escaping and parsing are inverse: [searchParams.get] applied to
    a URL built as [base?token=...&email=...] from
    [encodeURIComponent(token)] and [encodeURIComponent(email)] gives
    back the token and the address, whatever characters they contain. *)
Theorem searchParams_get_encodeURIComponent (base token email : string) :
  all_chars plain base = true ->
  URI.searchParams_get "token"
    (base ++ "?token=" ++ URI.encodeURIComponent token
          ++ "&email=" ++ URI.encodeURIComponent email) = Some token
  /\ URI.searchParams_get "email"
       (base ++ "?token=" ++ URI.encodeURIComponent token
             ++ "&email=" ++ URI.encodeURIComponent email) = Some email.
Proof.
  intros Hb.
  destruct (searchParams_of_link base _ _ Hb (encodeURIComponent_query_safe token)
              (encodeURIComponent_query_safe email)) as [Ht He].
  now rewrite Ht, He, !decode_encodeURIComponent.
Qed.

Lemma searchParams_get_encodeURIComponent_witness :
  all_chars plain "https://quantic.example/unsubscribe" = true
  /\ URI.searchParams_get "email"
       ("https://quantic.example/unsubscribe" ++ "?token="
          ++ URI.encodeURIComponent "t&=#%+" ++ "&email="
          ++ URI.encodeURIComponent "a+b c@x.com") = Some "a+b c@x.com".
Proof.
  split; [reflexivity|].
  exact (proj2 (searchParams_get_encodeURIComponent "https://quantic.example/unsubscribe"
                  "t&=#%+" "a+b c@x.com" eq_refl)).
Defined.

(* ===================================================================== *)
(** ** From the newsletter to the unsubscribe route *)
(* ===================================================================== *)

Lemma GET_unsubscribe_right_token (env : Env) (w : World) (e : string) i d :
  JS.truthy e = true -> reliable env -> first_record e (docs w) i d ->
  exists resp w',
    UnsubscribeRoute.GET (Some (generateUnsubscribeToken (UNSUBSCRIBE_SECRET env) e)) (Some e)
                         env w = Returned resp w'
    /\ status resp = 200
    /\ docs w' = if active d then <[i := deactivated (now env) d]> (docs w) else docs w.
Proof.
  intros Ht [Hr Hw] Hfirst.
  destruct (GET_unsubscribe_present env w
              (generateUnsubscribeToken (UNSUBSCRIBE_SECRET env) e) e eq_refl Ht)
    as (r & w' & resp & Hsvc & Hrun & Hok & _).
  exists resp, w'. split; [exact Hrun|].
  rewrite unsubscribeByToken_right in Hsvc. cbv zeta in Hsvc.
  rewrite (found_first_record env e w i d Hr Hfirst) in Hsvc.
  destruct (active d); simpl in Hsvc.
  - unfold updateDoc in Hsvc. simpl in Hsvc. rewrite Hw in Hsvc.
    destruct Hfirst as (Hi & _). rewrite Hi in Hsvc. injection Hsvc as <- <-.
    split; [now rewrite (Hok eq_refl)|reflexivity].
  - injection Hsvc as <- <-. split; [now rewrite (Hok eq_refl)|reflexivity].
Qed.

Lemma plain_path (origin path : string) :
  all_chars plain origin = true -> all_chars plain path = true ->
  all_chars plain (origin ++ path) = true.
Proof. intros Ho Hp. now rewrite all_chars_app, Ho, Hp. Qed.

(** X18. The link in the newsletter works.  Let the script and the web
    application share a non-empty secret, and let the script's [APP_URL]
    and the site's origin be free of spaces, [?] and [#].  For an address
    with a record in the collection, the link [sendNewsletter] computes
    opens the unsubscribe page with the token and the address in its
    query; the page fetches the API route with both; and the route, with
    Firestore answering, replies 200 and leaves the record inactive. *)
Theorem emailed_link_unsubscribes
    (cfg : Automation.Config) (env : Env) (w : World)
    (app origin secret e : string) (i : nat) (d : Subscriber) :
  Automation.APP_URL cfg = Some app ->
  Automation.UNSUBSCRIBE_SECRET cfg = Some secret ->
  UNSUBSCRIBE_SECRET env = Some secret -> secret <> "" ->
  all_chars plain app = true -> all_chars plain origin = true ->
  JS.truthy e = true -> reliable env -> first_record e (docs w) i d ->
  exists token link path resp w',
    Automation.token_for cfg (Some e) = Some token
    /\ link = Automation.unsubscribeUrl cfg (Some e) token
    /\ URI.searchParams_get "token" link = Some token
    /\ URI.searchParams_get "email" link = Some e
    /\ page_fetch link = Some path
    /\ GET_unsubscribe_request (origin ++ path) env w = Returned resp w'
    /\ status resp = 200
    /\ docs w' = if active d then <[i := deactivated (now env) d]> (docs w) else docs w.
Proof.
  intros Happ Hsec Henv Hne Hplain Horigin Hte Hrel Hfirst.
  assert (Htok : generateUnsubscribeToken (UNSUBSCRIBE_SECRET env) e
                 = Script.generateUnsubscribeToken (Some secret) e).
  { rewrite Henv. now apply generators_agree_when_configured. }
  assert (Hhex : URI.encodeURIComponent (Script.generateUnsubscribeToken (Some secret) e)
                 = Script.generateUnsubscribeToken (Some secret) e).
  { apply encodeURIComponent_hex. apply sha256_hex_shape. }
  assert (Htruthy : JS.truthy (Script.generateUnsubscribeToken (Some secret) e) = true).
  { pose proof (proj1 (sha256_hex_shape (e ++ JS.ToString (Some secret)))) as Hlen.
    unfold Script.generateUnsubscribeToken.
    destruct (SHA256.sha256_hex (e ++ JS.ToString (Some secret))); [discriminate Hlen|reflexivity]. }
  remember (Script.generateUnsubscribeToken (Some secret) e) as token eqn:Etoken.
  assert (Hlink : Automation.unsubscribeUrl cfg (Some e) token
                  = (app ++ "/unsubscribe") ++ "?token=" ++ URI.encodeURIComponent token
                    ++ "&email=" ++ URI.encodeURIComponent e).
  { unfold Automation.unsubscribeUrl. rewrite Happ, Hhex. simpl JS.ToString.
    now rewrite string_app_assoc. }
  destruct (searchParams_of_link (app ++ "/unsubscribe") _ _
              (plain_path app "/unsubscribe" Hplain eq_refl)
              (encodeURIComponent_query_safe token) (encodeURIComponent_query_safe e))
    as [Hget_t Hget_e].
  rewrite !decode_encodeURIComponent in Hget_t, Hget_e.
  destruct (searchParams_of_link (origin ++ "/api/unsubscribe") _ _
              (plain_path origin "/api/unsubscribe" Horigin eq_refl)
              (encodeURIComponent_query_safe token) (encodeURIComponent_query_safe e))
    as [Hreq_t Hreq_e].
  rewrite !decode_encodeURIComponent in Hreq_t, Hreq_e.
  destruct (GET_unsubscribe_right_token env w e i d Hte Hrel Hfirst)
    as (resp & w' & Hrun & Hstatus & Hdocs).
  rewrite Htok in Hrun.
  exists token, (Automation.unsubscribeUrl cfg (Some e) token),
    ("/api/unsubscribe?token=" ++ URI.encodeURIComponent token
       ++ "&email=" ++ URI.encodeURIComponent e), resp, w'.
  split; [unfold Automation.token_for; now rewrite Hsec, Etoken|]. split; [reflexivity|].
  rewrite Hlink. split; [exact Hget_t|]. split; [exact Hget_e|].
  split.
  { unfold page_fetch. rewrite Hget_t, Hget_e. unfold falsy, string_of. simpl default.
    now rewrite Htruthy, Hte. }
  split; [|split; assumption].
  unfold GET_unsubscribe_request.
  change (origin ++ "/api/unsubscribe?token=" ++ URI.encodeURIComponent token
            ++ "&email=" ++ URI.encodeURIComponent e)
    with (origin ++ "/api/unsubscribe" ++ "?token=" ++ URI.encodeURIComponent token
            ++ "&email=" ++ URI.encodeURIComponent e).
  rewrite <- string_app_assoc, Hreq_t, Hreq_e. exact Hrun.
Qed.

Lemma emailed_link_unsubscribes_witness :
  Automation.APP_URL sample_config = Some "https://quantic.example"
  /\ Automation.UNSUBSCRIBE_SECRET sample_config = Some "s3cret"
  /\ UNSUBSCRIBE_SECRET (configured 30) = Some "s3cret" /\ "s3cret" <> ""
  /\ all_chars plain "https://quantic.example" = true
  /\ JS.truthy "a@x.com" = true /\ reliable (configured 30)
  /\ first_record "a@x.com" [member] 0 member
  /\ exists token path resp w',
      Automation.token_for sample_config (Some "a@x.com") = Some token
      /\ page_fetch (Automation.unsubscribeUrl sample_config (Some "a@x.com") token)
         = Some path
      /\ GET_unsubscribe_request ("https://quantic.example" ++ path) (configured 30)
           {| docs := [member]; calls := [] |} = Returned resp w'
      /\ status resp = 200
      /\ docs w' = [deactivated 30 member].
Proof.
  assert (Hne : "s3cret" <> "") by discriminate.
  split; [reflexivity|]. split; [reflexivity|]. split; [reflexivity|]. split; [exact Hne|].
  split; [reflexivity|]. split; [reflexivity|]. split; [split; reflexivity|].
  split; [apply (first_record_head member [])|].
  destruct (emailed_link_unsubscribes sample_config (configured 30)
              {| docs := [member]; calls := [] |}
              "https://quantic.example" "https://quantic.example" "s3cret" "a@x.com"
              0%nat member eq_refl eq_refl eq_refl Hne eq_refl eq_refl eq_refl
              (conj eq_refl eq_refl) (first_record_head member []))
    as (token & link & path & resp & w' & Htok & -> & _ & _ & Hpage & Hrun & Hst & Hdocs).
  exists token, path, resp, w'. repeat split; assumption.
Defined.

(* ===================================================================== *)
(** ** The configuration check of the script *)
(* ===================================================================== *)

Lemma falsy_false (x : option string) :
  falsy x = false -> exists s, x = Some s /\ s <> "".
Proof.
  destruct x as [[|c s]|]; try discriminate. intros _. eexists. split; [reflexivity|discriminate].
Qed.

(** X19. [validateConfig] passes exactly when the five required settings
    are present and non-empty; a script that got past it computes, for
    every address, the token the web library computes from the same
    [UNSUBSCRIBE_SECRET], without ever using the library's fallback
    secret. *)
Theorem validateConfig_guards_the_secret (cfg : Automation.Config) :
  (Automation.validateConfig cfg = Automation.Valid <->
   falsy (Automation.GEMINI_API_KEY cfg) = false
   /\ falsy (Automation.SENDER_EMAIL cfg) = false
   /\ falsy (Automation.SENDER_PASSWORD cfg) = false
   /\ falsy (Automation.UNSUBSCRIBE_SECRET cfg) = false
   /\ falsy (Automation.APP_URL cfg) = false)
  /\ (Automation.validateConfig cfg = Automation.Valid ->
      exists secret,
        Automation.UNSUBSCRIBE_SECRET cfg = Some secret /\ secret <> ""
        /\ forall e,
            Script.generateUnsubscribeToken (Automation.UNSUBSCRIBE_SECRET cfg) e
            = generateUnsubscribeToken (Automation.UNSUBSCRIBE_SECRET cfg) e
            /\ generateUnsubscribeToken (Automation.UNSUBSCRIBE_SECRET cfg) e
               = SHA256.sha256_hex (e ++ secret)).
Proof.
  assert (Hiff : Automation.validateConfig cfg = Automation.Valid <->
                 falsy (Automation.GEMINI_API_KEY cfg) = false
                 /\ falsy (Automation.SENDER_EMAIL cfg) = false
                 /\ falsy (Automation.SENDER_PASSWORD cfg) = false
                 /\ falsy (Automation.UNSUBSCRIBE_SECRET cfg) = false
                 /\ falsy (Automation.APP_URL cfg) = false).
  { unfold Automation.validateConfig, Automation.required. simpl.
    unfold Automation.lookup. simpl.
    destruct (falsy (Automation.GEMINI_API_KEY cfg));
      destruct (falsy (Automation.SENDER_EMAIL cfg));
      destruct (falsy (Automation.SENDER_PASSWORD cfg));
      destruct (falsy (Automation.UNSUBSCRIBE_SECRET cfg));
      destruct (falsy (Automation.APP_URL cfg));
      (split;
       [intros H; try discriminate H; repeat split; reflexivity
       |intros (H1 & H2 & H3 & H4 & H5); try discriminate; reflexivity]). }
  split; [exact Hiff|]. intros Hvalid.
  apply Hiff in Hvalid as (_ & _ & _ & Hsec & _).
  destruct (falsy_false _ Hsec) as (secret & -> & Hne).
  exists secret. split; [reflexivity|]. split; [exact Hne|]. intros e.
  split; [symmetry; now apply generators_agree_when_configured|].
  unfold generateUnsubscribeToken. simpl. now destruct secret.
Qed.

Lemma validateConfig_guards_the_secret_witness :
  Automation.validateConfig sample_config = Automation.Valid
  /\ exists secret,
      Automation.UNSUBSCRIBE_SECRET sample_config = Some secret /\ secret <> ""
      /\ Script.generateUnsubscribeToken (Some "s3cret") "a@x.com"
         = generateUnsubscribeToken (Some "s3cret") "a@x.com".
Proof.
  split; [reflexivity|].
  destruct (proj2 (validateConfig_guards_the_secret sample_config) eq_refl)
    as (secret & Hs & Hne & Hall).
  exists secret. split; [exact Hs|]. split; [exact Hne|]. exact (proj1 (Hall "a@x.com")).
Defined.

(* ===================================================================== *)
(** ** Sending the newsletter *)
(* ===================================================================== *)

Lemma prefix_app (b c : string) : String.prefix b (b ++ c) = true.
Proof.
  induction b as [|x b IH]; simpl; [now destruct c|].
  destruct (ascii_dec x x); [exact IH|congruence].
Qed.

Lemma includes_unfold (s sub : string) :
  JS.includes s sub
  = String.prefix sub s
    || match s with
       | EmptyString => false
       | String _ s' => JS.includes s' sub
       end.
Proof. destruct s; reflexivity. Qed.

Lemma includes_here (sub c : string) : JS.includes (sub ++ c) sub = true.
Proof. now rewrite includes_unfold, prefix_app. Qed.

Lemma includes_skip (x rest sub : string) :
  JS.includes rest sub = true -> JS.includes (x ++ rest) sub = true.
Proof.
  intros H. induction x as [|a x IH]; simpl; [exact H|]. rewrite IH. apply orb_true_r.
Qed.

Lemma emailContent_includes_link (cfg : Automation.Config) (content url : string) :
  JS.includes (Automation.emailContent cfg content url) url = true.
Proof.
  unfold Automation.emailContent.
  repeat first [apply includes_here | apply includes_skip].
Qed.

Lemma sendNewsletter_from_elem
    (cfg : Automation.Config) (rejects : nat -> bool) (content : string)
    (subs : list Automation.Recipient) (i : nat) (outbox : list Automation.Mail)
    (m : Automation.Mail) :
  m ∈ Automation.sendNewsletter_from cfg rejects content i subs outbox <->
  m ∈ outbox
  \/ exists k s, subs !! k = Some s /\ rejects (i + k)%nat = false
                 /\ Automation.mail_for cfg content s = Some m.
Proof.
  revert i outbox. induction subs as [|s subs IH]; intros i outbox; simpl.
  - split; [auto|]. intros [H|(k & s & Hk & _)]; [exact H|discriminate Hk].
  - rewrite IH. split.
    + intros [Hm|(k & s' & Hk & Hrej & Hmail)].
      * destruct (Automation.mail_for cfg content s) as [m0|] eqn:Hm0; [|auto].
        destruct (rejects i) eqn:Hi; [auto|].
        apply elem_of_app in Hm as [Hm|Hm]; [auto|].
        apply list_elem_of_singleton in Hm as ->.
        right. exists 0%nat, s. rewrite Nat.add_0_r. auto.
      * right. exists (S k), s'. rewrite Nat.add_succ_r. auto.
    + intros [Hm|(k & s' & Hk & Hrej & Hmail)].
      * left. destruct (Automation.mail_for cfg content s); [|exact Hm].
        destruct (rejects i); [exact Hm|]. apply elem_of_app. now left.
      * destruct k as [|k]; simpl in Hk.
        -- injection Hk as ->. rewrite Nat.add_0_r in Hrej. rewrite Hmail, Hrej.
           left. apply elem_of_app. right. apply list_elem_of_singleton. reflexivity.
        -- right. exists k, s'. rewrite Nat.add_succ_r in Hrej. auto.
Qed.

Lemma sendNewsletter_from_length
    (cfg : Automation.Config) (rejects : nat -> bool) (content : string)
    (subs : list Automation.Recipient) (i : nat) (outbox : list Automation.Mail) :
  (List.length (Automation.sendNewsletter_from cfg rejects content i subs outbox)
   <= List.length outbox + List.length subs)%nat.
Proof.
  revert i outbox. induction subs as [|s subs IH]; intros i outbox; simpl; [lia|].
  etransitivity; [apply IH|].
  destruct (Automation.mail_for cfg content s); [|lia].
  destruct (rejects i); [lia|]. rewrite length_app. simpl. lia.
Qed.

(** X20. One refused send does not stop the newsletter.  Every recipient
    with an address whose own send the SMTP server accepts gets a mail,
    whatever happens to the sends before and after it, and that mail
    contains the unsubscribe link computed from the recipient's own
    address.  Nobody outside the list gets a mail, and there is at most
    one mail per recipient. *)
Theorem newsletter_survives_refused_sends
    (cfg : Automation.Config) (rejects : nat -> bool)
    (subs : list Automation.Recipient) (content : string) :
  (forall k s e,
      subs !! k = Some s -> Automation.email s = Some e -> rejects k = false ->
      exists m,
        m ∈ Automation.sendNewsletter cfg rejects subs content
        /\ Automation.to m = Some e
        /\ JS.includes (Automation.html m)
             (Automation.unsubscribeUrl cfg (Some e)
                (Script.generateUnsubscribeToken (Automation.UNSUBSCRIBE_SECRET cfg) e))
           = true)
  /\ (forall m,
        m ∈ Automation.sendNewsletter cfg rejects subs content ->
        exists k s, subs !! k = Some s /\ rejects k = false
                    /\ Automation.to m = Automation.email s)
  /\ (List.length (Automation.sendNewsletter cfg rejects subs content)
      <= List.length subs)%nat.
Proof.
  unfold Automation.sendNewsletter. split; [|split].
  - intros k s e Hk He Hrej.
    eexists. split.
    + apply sendNewsletter_from_elem. right. exists k, s.
      split; [exact Hk|]. split; [exact Hrej|].
      unfold Automation.mail_for, Automation.token_for. rewrite He. reflexivity.
    + split; [reflexivity|]. cbn [Automation.html]. apply emailContent_includes_link.
  - intros m Hm. apply sendNewsletter_from_elem in Hm as [Hm|(k & s & Hk & Hrej & Hmail)].
    + inversion Hm.
    + exists k, s. split; [exact Hk|]. split; [exact Hrej|].
      unfold Automation.mail_for in Hmail.
      destruct (Automation.token_for cfg (Automation.email s)); [|discriminate Hmail].
      now injection Hmail as <-.
  - apply (sendNewsletter_from_length cfg rejects content subs 0 []).
Qed.

Lemma newsletter_survives_refused_sends_witness :
  [ {| Automation.email := Some "a@x.com" |}; {| Automation.email := Some "b@x.com" |} ]
    !! 1%nat = Some {| Automation.email := Some "b@x.com" |}
  /\ exists m,
      m ∈ Automation.sendNewsletter sample_config (fun k => Nat.eqb k 0)
            [ {| Automation.email := Some "a@x.com" |};
              {| Automation.email := Some "b@x.com" |} ] "news"
      /\ Automation.to m = Some "b@x.com".
Proof.
  split; [reflexivity|].
  destruct (proj1 (newsletter_survives_refused_sends sample_config (fun k => Nat.eqb k 0)
                     [ {| Automation.email := Some "a@x.com" |};
                       {| Automation.email := Some "b@x.com" |} ] "news")
              1%nat {| Automation.email := Some "b@x.com" |} "b@x.com"
              eq_refl eq_refl eq_refl) as (m & Hm & Hto & _).
  exists m. split; assumption.
Defined.

(* ===================================================================== *)
(** ** The recipients of the newsletter *)
(* ===================================================================== *)

Lemma all_fields_Some (documents : list (option Automation.Fields)) fs :
  Automation.all_fields documents = Some fs -> documents = Some <$> fs.
Proof.
  revert fs. induction documents as [|[f|] documents IH]; intros fs; simpl.
  - now intros [= <-].
  - destruct (Automation.all_fields documents) as [fs'|]; [|discriminate].
    intros [= <-]. simpl. now rewrite (IH fs' eq_refl).
  - discriminate.
Qed.

Lemma all_fields_None (documents : list (option Automation.Fields)) :
  None ∈ documents -> Automation.all_fields documents = None.
Proof.
  induction documents as [|[f|] documents IH]; simpl.
  - intros H. inversion H.
  - intros H. apply elem_of_cons in H as [H|H]; [discriminate H|]. now rewrite (IH H).
  - reflexivity.
Qed.

(** A document of the REST answer qualifies as an active subscriber. *)
Lemma kept_iff (f : Automation.Fields) :
  negb (falsy (Automation.f_email f)) && Automation.isActive f = true <->
  falsy (Automation.f_email f) = false
  /\ falsy (Automation.f_subscribedAt f) = false
  /\ Automation.f_active f <> Some false.
Proof.
  unfold Automation.isActive. rewrite !andb_true_iff, !negb_true_iff. split.
  - intros (H1 & (H3 & _) & H2). split; [exact H1|]. split; [exact H2|].
    intros E. rewrite E in H3. discriminate H3.
  - intros (H1 & H2 & H3). repeat split; auto.
    destruct (Automation.f_active f) as [[]|]; try reflexivity. now contradict H3.
Qed.

Lemma getSubscribers_sources (cfg : Automation.Config) (reply : Automation.Reply) r :
  r ∈ Automation.getSubscribers cfg reply ->
  Automation.email r = Automation.SENDER_EMAIL cfg
  \/ exists documents f,
      reply = Automation.Body (Some documents) /\ Some f ∈ documents
      /\ Automation.email r = Automation.f_email f
      /\ falsy (Automation.f_email f) = false
      /\ falsy (Automation.f_subscribedAt f) = false
      /\ Automation.f_active f <> Some false.
Proof.
  assert (Hfb : forall r, r ∈ Automation.fallback cfg ->
                          Automation.email r = Automation.SENDER_EMAIL cfg).
  { intros r' Hr. apply list_elem_of_singleton in Hr as ->. reflexivity. }
  unfold Automation.getSubscribers.
  destruct (Automation.TEST_MODE cfg); [auto|].
  destruct (falsy (Automation.FIREBASE_projectId cfg) || falsy (Automation.FIREBASE_apiKey cfg));
    [auto|].
  destruct reply as [|[documents|]]; auto.
  destruct (Automation.all_fields documents) as [fs|] eqn:Hall; [|auto].
  apply all_fields_Some in Hall as ->.
  destruct (List.map _ (List.filter _ fs)) as [|r0 rs] eqn:Hsubs; [auto|].
  intros Hr. right. rewrite <- Hsubs in Hr.
  apply list_elem_of_In, in_map_iff in Hr as (f & <- & Hf).
  apply filter_In in Hf as [Hf Hkept]. apply kept_iff in Hkept as (H1 & H2 & H3).
  exists (Some <$> fs), f. split; [reflexivity|].
  split; [apply list_elem_of_fmap; exists f; split; [reflexivity|now apply list_elem_of_In]|].
  repeat split; assumption.
Qed.

(** X21. The recipient list is never empty, and nobody gets onto it by
    accident: every recipient is either the sender's own address (the
    fallback) or comes from a document of the collection that has a
    non-empty [email], a [subscribedAt], and whose [active] field is not
    [false].  In particular a document with [active: false] never
    contributes a recipient. *)
Theorem recipients_are_active_or_the_sender
    (cfg : Automation.Config) (reply : Automation.Reply) :
  Automation.getSubscribers cfg reply <> []
  /\ forall r,
      r ∈ Automation.getSubscribers cfg reply ->
      Automation.email r = Automation.SENDER_EMAIL cfg
      \/ exists documents f,
          reply = Automation.Body (Some documents) /\ Some f ∈ documents
          /\ Automation.email r = Automation.f_email f
          /\ falsy (Automation.f_email f) = false
          /\ falsy (Automation.f_subscribedAt f) = false
          /\ Automation.f_active f <> Some false.
Proof.
  split; [|intros r; apply getSubscribers_sources].
  unfold Automation.getSubscribers, Automation.fallback.
  destruct (Automation.TEST_MODE cfg); [discriminate|].
  destruct (falsy (Automation.FIREBASE_projectId cfg) || falsy (Automation.FIREBASE_apiKey cfg));
    [discriminate|].
  destruct reply as [|[documents|]]; try discriminate.
  destruct (Automation.all_fields documents) as [fs|]; [|discriminate].
  destruct (List.map _ (List.filter _ fs)); discriminate.
Qed.

Lemma recipients_are_active_or_the_sender_witness :
  Automation.getSubscribers sample_config Automation.Failed <> []
  /\ forall r,
      r ∈ Automation.getSubscribers sample_config
            (Automation.Body
               (Some [Some (Automation.mkFields (Some "b@x.com")
                              (Some "2025-01-01T00:00:00Z") (Some false))])) ->
      Automation.email r <> Some "b@x.com".
Proof.
  split; [apply (recipients_are_active_or_the_sender sample_config Automation.Failed)|].
  intros r Hr He.
  destruct (proj2 (recipients_are_active_or_the_sender sample_config _) r Hr)
    as [Hsender|(documents & f & [= <-] & Hf & Hemail & _ & _ & Hactive)].
  - rewrite He in Hsender. discriminate Hsender.
  - apply list_elem_of_singleton in Hf. injection Hf as ->. now apply Hactive.
Defined.

(** X22. With the real collection in reach (not in test mode, project
    and API key configured, an answer with [documents]): when every
    document has [fields], each one with a non-empty [email], a
    [subscribedAt] and [active] not [false] is a recipient; but a single
    document without [fields] makes the whole list fall back to the
    sender alone. *)
Theorem recipients_from_the_collection
    (cfg : Automation.Config) (documents : list (option Automation.Fields)) :
  Automation.TEST_MODE cfg = false ->
  falsy (Automation.FIREBASE_projectId cfg) = false ->
  falsy (Automation.FIREBASE_apiKey cfg) = false ->
  (None ∉ documents ->
   forall f, Some f ∈ documents ->
             falsy (Automation.f_email f) = false ->
             falsy (Automation.f_subscribedAt f) = false ->
             Automation.f_active f <> Some false ->
             {| Automation.email := Automation.f_email f |}
               ∈ Automation.getSubscribers cfg (Automation.Body (Some documents)))
  /\ (None ∈ documents ->
      Automation.getSubscribers cfg (Automation.Body (Some documents))
      = [ {| Automation.email := Automation.SENDER_EMAIL cfg |} ]).
Proof.
  intros Htest Hproj Hkey. unfold Automation.getSubscribers.
  rewrite Htest, Hproj, Hkey. simpl. split.
  - intros Hnone f Hf H1 H2 H3.
    destruct (Automation.all_fields documents) as [fs|] eqn:Hall.
    + apply all_fields_Some in Hall as ->.
      assert (Hin : {| Automation.email := Automation.f_email f |}
                      ∈ List.map (fun f => {| Automation.email := Automation.f_email f |})
                          (List.filter
                             (fun f => negb (falsy (Automation.f_email f))
                                       && Automation.isActive f) fs)).
      { apply list_elem_of_In, in_map_iff. exists f. split; [reflexivity|].
        apply filter_In. split; [|now apply kept_iff].
        apply list_elem_of_fmap in Hf as (f' & [= ->] & Hf'). now apply list_elem_of_In. }
      destruct (List.map _ (List.filter _ fs)); [inversion Hin|exact Hin].
    + exfalso. apply Hnone. clear -Hall.
      induction documents as [|[f0|] documents IH]; simpl in Hall.
      * discriminate.
      * apply elem_of_cons. right. apply IH.
        now destruct (Automation.all_fields documents).
      * apply list_elem_of_here.
  - intros Hnone. now rewrite (all_fields_None documents Hnone).
Qed.

Lemma recipients_from_the_collection_witness :
  Automation.TEST_MODE sample_config = false
  /\ None ∈ [Some (Automation.mkFields (Some "a@x.com") (Some "2025-01-01T00:00:00Z") None);
             None]
  /\ Automation.getSubscribers sample_config
       (Automation.Body
          (Some [Some (Automation.mkFields (Some "a@x.com") (Some "2025-01-01T00:00:00Z") None);
                 None]))
     = [ {| Automation.email := Some "news@x.com" |} ].
Proof.
  assert (H : None ∈ [Some (Automation.mkFields (Some "a@x.com")
                              (Some "2025-01-01T00:00:00Z") None); None])
    by (apply list_elem_of_further, list_elem_of_here).
  split; [reflexivity|]. split; [exact H|].
  exact (proj2 (recipients_from_the_collection sample_config _ eq_refl eq_refl eq_refl) H).
Defined.

(* ===================================================================== *)
(** ** Who is listed, who is mailed *)
(* ===================================================================== *)

Lemma query_active_filter (i : nat) (l : list Subscriber) :
  List.map snd (query_from i WhereActive l) = List.filter active l.
Proof.
  revert i. induction l as [|d l IH]; intros i; simpl; [reflexivity|].
  destruct (active d); simpl; now rewrite IH.
Qed.

(** X23. [GET /api/subscribe], Firestore answering, publishes exactly the
    active part of the collection: [total] is the number of active
    documents and [subscribers] lists their addresses and subscription
    times in collection order; inactive documents are left out. *)
Theorem GET_subscribe_lists_the_active (env : Env) (w : World) :
  read_fails env = false ->
  SubscribeRoute.GET env w
  = Returned {| body := listing (List.filter active (docs w)); status := 200 |}
             (log (CGetDocs WhereActive) w).
Proof.
  intros Hr. unfold SubscribeRoute.GET, try_catch, bind.
  rewrite getActiveSubscribers_eq, Hr, query_active_filter. reflexivity.
Qed.

Lemma GET_subscribe_lists_the_active_witness :
  read_fails (quiet 30) = false
  /\ SubscribeRoute.GET (quiet 30) {| docs := [member; lapsed]; calls := [] |}
     = Returned {| body := JObject [("total", JNumber 1);
                                    ("subscribers",
                                     JArray [JObject [("email", JString "a@x.com");
                                                      ("subscribedAt", JDate 10)]])];
                   status := 200 |}
                {| docs := [member; lapsed]; calls := [CGetDocs WhereActive] |}.
Proof.
  split; [reflexivity|].
  exact (GET_subscribe_lists_the_active (quiet 30)
           {| docs := [member; lapsed]; calls := [] |} eq_refl).
Defined.


